(** * MultiTypeCollection

    A shallow embedding of [grr/lib/aff4_objects/multi_type_collection.py]:
    a collection that demultiplexes the values added to it into one ordered
    sequence per payload type, and finds the types in use again through marker
    attributes kept on its own row of the data store.

    The class under study is [MultiTypeCollection].  Its collaborators (the
    data store, the mutation and deletion pools, the sequential collection,
    the message envelope) live in other modules of the code base; each is
    modelled below in a module named after the Python module it stands for. *)

From Stdlib Require Import List String Ascii ZArith Bool Lia Sorted Permutation.
Import ListNotations.

Local Open Scope string_scope.
Local Open Scope Z_scope.
Local Open Scope list_scope.

(** ** Python values and control *)

(** The exceptions the modelled code can raise. *)
Inductive PyExc : Type :=
| ValueError (msg : string)
| AttributeError (msg : string).

(** [x or y] on an optional string: [None] and the empty string are falsy. *)
Definition py_or (x : option string) (y : string) : string :=
  match x with
  | None => y
  | Some s => if String.eqb s EmptyString then y else s
  end.

(** [s.startswith(p)]. *)
Definition startswith (s p : string) : bool := String.prefix p s.

(** [s[n:]] for a string [s] and [0 <= n]. *)
Fixpoint slice_from (n : nat) (s : string) : string :=
  match n, s with
  | O, _ => s
  | S n', EmptyString => EmptyString
  | S n', String _ s' => slice_from n' s'
  end.

(** ** rdfvalue: object addresses *)
Module rdfvalue.

(** One step of an address.  A named child is what [RDFURN.Add] appends; a
    slot is the step the sequential collection appends to name the row of
    one entry after its ordering key. *)
Inductive Component : Type :=
| Name (s : string)
| Slot (timestamp suffix : Z).

Definition RDFURN : Type := list Component.

(** [urn.Add(path)]. *)
Definition Add (urn : RDFURN) (path : string) : RDFURN := urn ++ [Name path].

Definition component_eqb (a b : Component) : bool :=
  match a, b with
  | Name s, Name t => String.eqb s t
  | Slot t1 s1, Slot t2 s2 => (t1 =? t2) && (s1 =? s2)
  | _, _ => false
  end.

Fixpoint eqb (u v : RDFURN) : bool :=
  match u, v with
  | [], [] => true
  | a :: u', b :: v' => component_eqb a b && eqb u' v'
  | _, _ => false
  end.

(** [under p u]: the address [u] lies in the key range that starts at [p]. *)
Fixpoint under (p u : RDFURN) : bool :=
  match p, u with
  | [], _ => true
  | a :: p', b :: u' => component_eqb a b && under p' u'
  | _ :: _, [] => false
  end.

End rdfvalue.

(** ** rdf_flows: the message envelope *)
Module rdf_flows.

(** The envelope: the type name of the payload it carries, when it carries
    one, and the payload's serialized form. *)
Record GrrMessage : Type := mkGrrMessage {
  args_rdf_name : option string;
  args : string
}.

(** An rdf value handed to the collection: an envelope already, or a value
    of some other class, known by its class name and serialized form. *)
Inductive RDFValue : Type :=
| Message (m : GrrMessage)
| Payload (class_name : string) (serialized : string).

(** [isinstance(v, GrrMessage)]. *)
Definition is_GrrMessage (v : RDFValue) : bool :=
  match v with Message _ => true | Payload _ _ => false end.

(** Modelled from the spec: the constructor [GrrMessage(payload=v)] is not
    part of the file under study.  The envelope it builds carries "an
    explicit type-name field, computed once at write time and stored
    alongside the payload". *)
Definition GrrMessage_of_payload (class_name serialized : string) : GrrMessage :=
  {| args_rdf_name := Some class_name; args := serialized |}.

(** [GrrMessage.__name__]. *)
Definition GrrMessage__name__ : string := "GrrMessage".

Definition option_string_eqb (a b : option string) : bool :=
  match a, b with
  | None, None => true
  | Some s, Some t => String.eqb s t
  | _, _ => false
  end.

Definition GrrMessage_eqb (a b : GrrMessage) : bool :=
  option_string_eqb (args_rdf_name a) (args_rdf_name b)
  && String.eqb (args a) (args b).

End rdf_flows.

(** ** data_store: the attribute store, its batches and the world *)
Module data_store.
Import rdfvalue rdf_flows.

Definition Token : Type := string.

Inductive Value : Type :=
| Int (n : Z)
| Blob (m : GrrMessage).

(** One attribute of one row. *)
Record Cell : Type := mkCell {
  subject : RDFURN;
  attribute : string;
  value : Value;
  timestamp : Z
}.

Definition Store : Type := list Cell.

Definition at_slot (s : RDFURN) (a : string) (c : Cell) : bool :=
  rdfvalue.eqb (subject c) s && String.eqb (attribute c) a.

(** Modelled from the spec: [data_store.DB.Set], the store's
    [SetAttribute(rowId, attributeName, value, timestamp)], "a repeatable,
    idempotent, last-writer-wins point write". *)
Definition DB_Set (db : Store) (s : RDFURN) (a : string) (v : Value) (ts : Z) : Store :=
  filter (fun c => negb (at_slot s a c)) db
    ++ [ {| subject := s; attribute := a; value := v; timestamp := ts |} ].

(** Modelled from the spec: [data_store.DB.ResolveRow], the store's
    [ScanRowAttributes(rowId)], a sequence of (attributeName, value,
    timestamp). *)
Definition ResolveRow (db : Store) (s : RDFURN) : list (string * Value * Z) :=
  map (fun c => (attribute c, value c, timestamp c))
      (filter (fun c => rdfvalue.eqb (subject c) s) db).

(** Modelled from the spec: [data_store.DB.ScanAttribute], the store's
    [ScanAttributeAcrossRows(attributeName, rowIdPrefix)]; the row comes
    first in each triple, as the loop of [OnDelete] reads it. *)
Definition ScanAttribute (db : Store) (subject_prefix : RDFURN) (a : string)
  : list (RDFURN * Z * Value) :=
  map (fun c => (subject c, timestamp c, value c))
      (filter (fun c => under subject_prefix (subject c) && String.eqb (attribute c) a) db).

(** A write staged in a mutation pool. *)
Record SetRequest : Type := mkSetRequest {
  req_subject : RDFURN;
  req_attribute : string;
  req_value : Value;
  req_timestamp : Z
}.

Definition apply_request (db : Store) (r : SetRequest) : Store :=
  DB_Set db (req_subject r) (req_attribute r) (req_value r) (req_timestamp r).

(** The mutable state the code runs against: the store, the mutation pools
    and deletion pools that callers hold (each known by a reference), and
    the two readings a call takes from its environment, the clock and the
    random source. *)
Record World : Type := mkWorld {
  DB : Store;
  mutation_pools : nat -> list SetRequest;
  deletion_pools : nat -> list RDFURN;
  now : Z;
  random : Z
}.

Definition upd {A : Type} (f : nat -> A) (k : nat) (v : A) : nat -> A :=
  fun j => if Nat.eqb j k then v else f j.

End data_store.

(** ** A state and exception monad for the calls that write *)

Definition M (A : Type) : Type :=
  data_store.World -> (PyExc + A) * data_store.World.

Definition ret {A : Type} (a : A) : M A := fun w => (inr a, w).

Definition raise {A : Type} (e : PyExc) : M A := fun w => (inl e, w).

Definition bind {A B : Type} (m : M A) (k : A -> M B) : M B :=
  fun w =>
    match m w with
    | (inl e, w') => (inl e, w')
    | (inr a, w') => k a w'
    end.

Definition gets {A : Type} (f : data_store.World -> A) : M A := fun w => (inr (f w), w).

Definition modify (f : data_store.World -> data_store.World) : M unit :=
  fun w => (inr tt, f w).

Declare Scope py_scope.
Delimit Scope py_scope with py.
Notation "x <- m ;; k" := (bind m (fun x => k))
  (at level 100, m at next level, right associativity) : py_scope.
Notation "m ;;; k" := (bind m (fun _ => k))
  (at level 100, right associativity) : py_scope.

(** [for x in xs: body(x)]: the loop stops at the first exception. *)
Fixpoint for_each {A : Type} (xs : list A) (body : A -> M unit) : M unit :=
  match xs with
  | [] => ret tt
  | x :: xs' => bind (body x) (fun _ => for_each xs' body)
  end.

Local Open Scope py_scope.

(** ** The pools a caller may hand in *)
Module pools.
Import rdfvalue data_store.

(** Modelled from the spec: [mutation_pool.Set], the batched form of the
    store's point write: the write is staged in the pool the reference names
    and the store is left alone. *)
Definition MutationPool_Set (pool : nat) (s : RDFURN) (a : string) (v : Value) (ts : Z)
  : M unit :=
  modify (fun w =>
    {| DB := DB w;
       mutation_pools :=
         upd (mutation_pools w) pool
             (mutation_pools w pool
                ++ [ {| req_subject := s; req_attribute := a;
                        req_value := v; req_timestamp := ts |} ]);
       deletion_pools := deletion_pools w;
       now := now w;
       random := random w |}).

(** [data_store.DB.Set(...)] as a step on the world. *)
Definition DB_Set_now (s : RDFURN) (a : string) (v : Value) (ts : Z) (token : Token)
  : M unit :=
  modify (fun w =>
    {| DB := DB_Set (DB w) s a v ts;
       mutation_pools := mutation_pools w;
       deletion_pools := deletion_pools w;
       now := now w;
       random := random w |}).

(** Modelled from the spec: "batched mutation application": the staged
    writes reach the store in the order they were staged, and the pool is
    empty afterwards. *)
Definition MutationPool_Flush (pool : nat) : M unit :=
  modify (fun w =>
    {| DB := fold_left apply_request (mutation_pools w pool) (DB w);
       mutation_pools := upd (mutation_pools w) pool [];
       deletion_pools := deletion_pools w;
       now := now w;
       random := random w |}).

(** Modelled from the spec: [deletion_pool.MarkForDeletion(urn)] registers
    the address with the pool "for eventual physical deletion". *)
Definition MarkForDeletion (pool : nat) (u : RDFURN) : M unit :=
  modify (fun w =>
    {| DB := DB w;
       mutation_pools := mutation_pools w;
       deletion_pools := upd (deletion_pools w) pool (deletion_pools w pool ++ [u]);
       now := now w;
       random := random w |}).

End pools.

(** ** sequential_collection: the ordered sequence primitive *)
Module sequential_collection.
Import rdfvalue rdf_flows data_store pools.

(** The ordering key of an entry: (timestamp in microseconds, suffix). *)
Definition Key : Type := (Z * Z)%type.

Definition key_leb (a b : Key) : bool :=
  (fst a <? fst b) || ((fst a =? fst b) && (snd a <=? snd b)).

Definition key_ltb (a b : Key) : bool :=
  (fst a <? fst b) || ((fst a =? fst b) && (snd a <? snd b)).

(** Modelled from the spec: [SequentialCollection.ATTRIBUTE], "the
    sequence primitive's own marking attribute"; every row of an entry
    carries it. *)
Definition ATTRIBUTE : string := "aff4:sequential_value".

(** Modelled from the spec: [GrrMessageCollection.StaticAdd], the
    primitive's [Append(sequenceId, value, timestamp, suffix, batch?) ->
    OrderingKey]: "timestamp defaults to current time; suffix defaults to a
    randomly chosen disambiguator"; the batch, "if provided, is ... applied
    instead of an immediate store write".  The entry gets a row of its own
    under the sequence, named after its ordering key. *)
Definition StaticAdd (collection_urn : RDFURN) (token : Token) (rdf_value : GrrMessage)
    (timestamp suffix : option Z) (mutation_pool : option nat) : M Key :=
  ts <- match timestamp with Some t => ret t | None => gets now end ;;
  sfx <- match suffix with Some s => ret s | None => gets random end ;;
  (match mutation_pool with
   | Some pool =>
       MutationPool_Set pool (collection_urn ++ [Slot ts sfx]) ATTRIBUTE (Blob rdf_value) ts
   | None =>
       DB_Set_now (collection_urn ++ [Slot ts sfx]) ATTRIBUTE (Blob rdf_value) ts token
   end) ;;;
  ret (ts, sfx).

(** The entry a cell holds for the sequence at [seq], if it holds one. *)
Definition entry_at (seq : RDFURN) (c : Cell) : option (Key * GrrMessage) :=
  if String.eqb (attribute c) ATTRIBUTE then
    match last (subject c) (Name EmptyString), value c with
    | Slot ts sfx, Blob m =>
        if rdfvalue.eqb (removelast (subject c)) seq then Some ((ts, sfx), m) else None
    | _, _ => None
    end
  else None.

(** The entries of the sequence at [seq], in the order the store holds them. *)
Definition entries (db : Store) (seq : RDFURN) : list (Key * GrrMessage) :=
  flat_map (fun c => match entry_at seq c with Some e => [e] | None => [] end) db.

Fixpoint insert_by_key (e : Key * GrrMessage) (l : list (Key * GrrMessage))
  : list (Key * GrrMessage) :=
  match l with
  | [] => [e]
  | x :: l' => if key_leb (fst e) (fst x) then e :: l else x :: insert_by_key e l'
  end.

Fixpoint sort_by_key (l : list (Key * GrrMessage)) : list (Key * GrrMessage) :=
  match l with
  | [] => []
  | x :: l' => insert_by_key x (sort_by_key l')
  end.

(** What a scan reports as the time of an entry: the microseconds alone, or
    the pair with the suffix. *)
Inductive Stamp : Type :=
| Micros (t : Z)
| WithSuffix (t suffix : Z).

Definition stamp_of (include_suffix : bool) (k : Key) : Stamp :=
  if include_suffix then WithSuffix (fst k) (snd k) else Micros (fst k).

(** Modelled from the spec: [sub_collection.Scan], the primitive's
    [Scan(sequenceId, afterKey?, limit?)]: "produces entries in ascending key
    order, optionally starting strictly after afterKey, optionally capped at
    limit entries".  The lazy sequence is given as the list it yields. *)
Definition Scan (db : Store) (seq : RDFURN) (after_timestamp : option Key)
    (include_suffix : bool) (max_records : option nat) : list (Stamp * GrrMessage) :=
  let ordered := sort_by_key (entries db seq) in
  let later :=
    match after_timestamp with
    | None => ordered
    | Some k => filter (fun e => key_ltb k (fst e)) ordered
    end in
  let capped :=
    match max_records with
    | None => later
    | Some n => firstn n later
    end in
  map (fun e => (stamp_of include_suffix (fst e), snd e)) capped.

(** Modelled from the spec: [len(sub_collection)], the primitive's
    [Length(sequenceId)]. *)
Definition __len__ (db : Store) (seq : RDFURN) : nat := List.length (entries db seq).

(** Modelled from the spec: iterating a sub collection drains "that type's
    Scan", a sequence of (OrderingKey, Value). *)
Definition __iter__ (db : Store) (seq : RDFURN) : list (Stamp * GrrMessage) :=
  Scan db seq None true None.

End sequential_collection.

(** ** aff4: objects and the base class *)
Module aff4.
Import rdfvalue data_store.

(** An AFF4 object as the code under study uses it: its address and the
    token it reads and writes with. *)
Record AFF4Object : Type := mkAFF4Object {
  urn : RDFURN;
  token : Token
}.

(** [aff4.FACTORY.Create(urn, aff4_type=..., token=...)]: a handle on the
    object at [urn]; the code never flushes the handles it creates. *)
Definition FACTORY_Create (u : RDFURN) (t : Token) : AFF4Object :=
  {| urn := u; token := t |}.

(** The base class's deletion hook, [AFF4Object.OnDelete], which
    [MultiTypeCollection.OnDelete] calls first.  It is defined outside the
    file under study, so the development is parametric in it. *)
Class AFF4Base : Type := {
  super_OnDelete : AFF4Object -> option nat -> M unit
}.

End aff4.

(** ** MultiTypeCollection: the class under study *)
Module MultiTypeCollection.
Import rdfvalue rdf_flows data_store pools aff4.
Import sequential_collection(Key, Stamp).

Definition VALUE_TYPE_PREFIX : string := "aff4:value_type_".

(** The envelope [StaticAdd] stores for a value: the value itself when it is
    a [GrrMessage], [GrrMessage(payload=value)] otherwise. *)
Definition envelope (v : RDFValue) : GrrMessage :=
  match v with
  | Message m => m
  | Payload class_name serialized => GrrMessage_of_payload class_name serialized
  end.

(** [rdf_value.args_rdf_name or rdf_flows.GrrMessage.__name__]. *)
Definition value_type_of (m : GrrMessage) : string :=
  py_or (args_rdf_name m) GrrMessage__name__.

(** The attribute that marks a type as stored:
    ["%s%s" % (cls.VALUE_TYPE_PREFIX, value_type)]. *)
Definition marker (value_type : string) : string :=
  String.append VALUE_TYPE_PREFIX value_type.

(** [StaticAdd].  A [rdf_value] of [None] is Python's [None].  The body ends
    without a [return] statement, so the call evaluates to [None]: that is the
    [None] of the result.  [if mutation_pool:] takes the first branch for
    every pool object, a pool being truthy as any object is that defines
    neither a length nor a truth value.  The remaining keyword arguments go
    to the store calls as they are and take no part in what is stated
    here. *)
Definition StaticAdd (collection_urn : RDFURN) (token : Token)
    (rdf_value : option RDFValue) (timestamp suffix : option Z)
    (mutation_pool : option nat) : M (option Key) :=
  match rdf_value with
  | None => raise (ValueError "Can't add None to MultiTypeCollection")
  | Some v =>
      let rdf_value := envelope v in
      let value_type := value_type_of rdf_value in
      let subpath := rdfvalue.Add collection_urn value_type in
      sequential_collection.StaticAdd
        subpath token rdf_value timestamp suffix mutation_pool ;;;
      (match mutation_pool with
       | Some pool => MutationPool_Set pool collection_urn (marker value_type) (Int 1) 0
       | None => DB_Set_now collection_urn (marker value_type) (Int 1) 0 token
       end) ;;;
      ret None
  end.

(** [ListStoredTypes]: the loop appends to [res] the rest of every attribute
    of the row that starts with the prefix. *)
Definition ListStoredTypes (self : AFF4Object) (db : Store) : list string :=
  fold_left
    (fun res row =>
       let '(attribute, _, _) := row in
       if startswith attribute VALUE_TYPE_PREFIX
       then res ++ [slice_from (String.length VALUE_TYPE_PREFIX) attribute]
       else res)
    (ResolveRow db (urn self)) [].

(** [ScanByType]: the generator is given as the list of what it yields. *)
Definition ScanByType (self : AFF4Object) (db : Store) (type_name : string)
    (after_timestamp : option Key) (include_suffix : bool)
    (max_records : option nat) : list (Stamp * GrrMessage) :=
  let sub_collection_urn := rdfvalue.Add (urn self) type_name in
  let sub_collection := FACTORY_Create sub_collection_urn (token self) in
  sequential_collection.Scan db (urn sub_collection)
    after_timestamp include_suffix max_records.

(** [LengthByType]. *)
Definition LengthByType (self : AFF4Object) (db : Store) (type_name : string) : nat :=
  let sub_collection_urn := rdfvalue.Add (urn self) type_name in
  let sub_collection := FACTORY_Create sub_collection_urn (token self) in
  sequential_collection.__len__ db (urn sub_collection).

(** [Add]: the keyword arguments it passes through may carry a
    [mutation_pool], which [StaticAdd] then receives. *)
Definition Add (self : AFF4Object) (rdf_value : option RDFValue)
    (timestamp suffix : option Z) (mutation_pool : option nat) : M (option Key) :=
  StaticAdd (urn self) (token self) rdf_value timestamp suffix mutation_pool.

(** [__iter__]: the generator is given as the list of what it yields. *)
Definition __iter__ (self : AFF4Object) (db : Store) : list (Stamp * GrrMessage) :=
  let sub_collection_urns :=
    map (fun stored_type => rdfvalue.Add (urn self) stored_type) (ListStoredTypes self db) in
  flat_map
    (fun sub_collection_urn =>
       let sub_collection := FACTORY_Create sub_collection_urn (token self) in
       sequential_collection.__iter__ db (urn sub_collection))
    sub_collection_urns.

(** [__len__]. *)
Definition __len__ (self : AFF4Object) (db : Store) : nat :=
  let sub_collection_urns :=
    map (fun stored_type => rdfvalue.Add (urn self) stored_type) (ListStoredTypes self db) in
  fold_left
    (fun l sub_collection_urn =>
       let sub_collection := FACTORY_Create sub_collection_urn (token self) in
       (l + sequential_collection.__len__ db (urn sub_collection))%nat)
    sub_collection_urns 0%nat.

(** [OnDelete]: the base class's hook runs first; then every row the scan
    finds is handed to [deletion_pool.MarkForDeletion], whatever
    [deletion_pool] is: on [None] the attribute lookup raises. *)
Definition OnDelete `{AFF4Base} (self : AFF4Object) (deletion_pool : option nat)
  : M unit :=
  super_OnDelete self deletion_pool ;;;
  (rows <- gets (fun w =>
             ScanAttribute (DB w) (urn self) sequential_collection.ATTRIBUTE) ;;
   for_each rows
     (fun row =>
        let '(u, _, _) := row in
        match deletion_pool with
        | None =>
            raise (AttributeError
                     "'NoneType' object has no attribute 'MarkForDeletion'")
        | Some pool => MarkForDeletion pool u
        end)).

End MultiTypeCollection.

(** ** Drivers: several calls in a row *)
Module driver.
Import rdfvalue rdf_flows data_store pools aff4.

(** What a client does to the world, one step at a time: a call of
    [StaticAdd], the application of a mutation pool, or the passing of time
    (a new clock reading and a new draw of the random source). *)
Inductive Op : Type :=
| Call_StaticAdd (collection_urn : RDFURN) (token : Token)
    (rdf_value : option RDFValue) (timestamp suffix : option Z)
    (mutation_pool : option nat)
| Call_Flush (mutation_pool : nat)
| Tick (clock draw : Z).

(** The world after a call; an exception leaves it as the call left it. *)
Definition step (w : World) (op : Op) : World :=
  match op with
  | Call_StaticAdd u t v ts sfx mp =>
      snd (MultiTypeCollection.StaticAdd u t v ts sfx mp w)
  | Call_Flush mp => snd (MutationPool_Flush mp w)
  | Tick clock draw =>
      {| DB := DB w;
         mutation_pools := mutation_pools w;
         deletion_pools := deletion_pools w;
         now := clock;
         random := draw |}
  end.

Definition run (ops : list Op) (w : World) : World := fold_left step ops w.

(** A world with nothing stored and nothing staged. *)
Definition empty_world (clock draw : Z) : World :=
  {| DB := [];
     mutation_pools := fun _ => [];
     deletion_pools := fun _ => [];
     now := clock;
     random := draw |}.

End driver.

(** ** Vocabulary of the statements *)
Module view.
Import rdfvalue rdf_flows data_store pools aff4.
Import sequential_collection(Key, Stamp, Micros, WithSuffix, ATTRIBUTE, key_leb).

(** The ordering key an append takes in the world [w]: the arguments where
    they are given, the clock and the random source where they are not. *)
Definition key_in (w : World) (timestamp suffix : option Z) : Key :=
  (match timestamp with Some t => t | None => now w end,
   match suffix with Some s => s | None => random w end).

(** The row of the entry with key [k] in the sequence of [value_type]. *)
Definition entry_row (collection_urn : RDFURN) (value_type : string) (k : Key) : RDFURN :=
  rdfvalue.Add collection_urn value_type ++ [Slot (fst k) (snd k)].

(** The two writes of one [StaticAdd], as requests. *)
Definition entry_request (collection_urn : RDFURN) (m : GrrMessage) (k : Key) : SetRequest :=
  {| req_subject := entry_row collection_urn (MultiTypeCollection.value_type_of m) k;
     req_attribute := ATTRIBUTE;
     req_value := Blob m;
     req_timestamp := fst k |}.

Definition marker_request (collection_urn : RDFURN) (m : GrrMessage) : SetRequest :=
  {| req_subject := collection_urn;
     req_attribute := MultiTypeCollection.marker (MultiTypeCollection.value_type_of m);
     req_value := Int 1;
     req_timestamp := 0 |}.

(** The row [s] carries the attribute [a]. *)
Definition has_attribute (db : Store) (s : RDFURN) (a : string) : bool :=
  existsb (at_slot s a) db.

(** The order of the ordering keys: by timestamp, then by suffix. *)
Definition key_le (a b : Key) : Prop :=
  fst a < fst b \/ (fst a = fst b /\ snd a <= snd b).

Definition by_key (x y : Key * GrrMessage) : Prop := key_le (fst x) (fst y).

(** The order of the times a scan reports. *)
Definition stamp_le (a b : Stamp) : Prop :=
  match a, b with
  | Micros t, Micros t' => t <= t'
  | WithSuffix t s, WithSuffix t' s' => t < t' \/ (t = t' /\ s <= s')
  | _, _ => False
  end.

(** The types listed for a collection cover the types that have entries
    under it. *)
Definition markers_cover (db : Store) : Prop :=
  forall (self : AFF4Object) (value_type : string),
    (0 < MultiTypeCollection.LengthByType self db value_type)%nat ->
    In value_type (MultiTypeCollection.ListStoredTypes self db).

(** The staged writes of a pool that only [StaticAdd] has written to: each
    entry write is followed by the marker write of its type. *)
Inductive paired : list SetRequest -> Prop :=
| paired_nil : paired []
| paired_snoc (reqs : list SetRequest) (u : RDFURN) (m : GrrMessage) (k : Key) :
    paired reqs ->
    paired (reqs ++ [entry_request u m k; marker_request u m]).

(** A world in which the markers cover the entries, in the store and in
    what the pools will write to it. *)
Definition well_kept (w : World) : Prop :=
  markers_cover (DB w) /\ forall pool : nat, paired (mutation_pools w pool).

(** No row carries the same attribute twice. *)
Definition slots_unique (db : Store) : Prop :=
  NoDup (map (fun c => (subject c, attribute c)) db).

(** The entries that iterating the types [types] of the collection at [u]
    yields, one type after the other. *)
Definition drained (db : Store) (u : RDFURN) (types : list string)
  : list (Stamp * GrrMessage) :=
  flat_map (fun t => sequential_collection.__iter__ db (rdfvalue.Add u t)) types.

End view.

(** ** The scenario of the documentation *)
Module scenario.
Import rdfvalue rdf_flows data_store pools aff4 driver.

Definition collection : AFF4Object :=
  {| urn := [Name "collection"]; token := "token" |}.

(** Two values of type "A" in the same microsecond, the later key first,
    then a value of type "B" at an earlier time and with a drawn suffix. *)
Definition calls : list Op :=
  [ Call_StaticAdd (urn collection) (token collection)
      (Some (Payload "A" "second")) (Some 100) (Some 7) None;
    Call_StaticAdd (urn collection) (token collection)
      (Some (Payload "A" "first")) (Some 100) (Some 5) None;
    Call_StaticAdd (urn collection) (token collection)
      (Some (Payload "B" "third")) (Some 50) None None ].

Definition final : World := run calls (empty_world 1000 42).

End scenario.

(** ** Two base classes to run [OnDelete] with *)
Module bases.
Import rdfvalue data_store aff4.

(** A base class whose hook does nothing. *)
Definition silent : AFF4Base :=
  {| super_OnDelete := fun _ _ => ret tt |}.

(** A base class whose hook insists on a deletion pool. *)
Definition strict : AFF4Base :=
  {| super_OnDelete := fun _ deletion_pool =>
       match deletion_pool with
       | None => raise (ValueError "deletion_pool can't be None")
       | Some _ => ret tt
       end |}.

(** A store in which an entry was appended and its marker never written. *)
Definition unmarked : World :=
  snd (sequential_collection.StaticAdd
         (rdfvalue.Add [Name "collection"] "A") "token"
         {| rdf_flows.args_rdf_name := Some "A"; rdf_flows.args := "first" |}
         (Some 100) (Some 5) None (driver.empty_world 1000 42)).

End bases.

(** ** More vocabulary: what the markers stand for *)
Module reach.
Import rdfvalue rdf_flows data_store pools aff4 view.
Import sequential_collection(Key, ATTRIBUTE).

(** Every type listed for a collection has an entry under it. *)
Definition markers_backed (db : Store) : Prop :=
  forall (self : AFF4Object) (value_type : string),
    In value_type (MultiTypeCollection.ListStoredTypes self db) ->
    (0 < MultiTypeCollection.LengthByType self db value_type)%nat.

(** A world in which the markers are backed, in the store and in what the
    pools will write to it. *)
Definition well_backed (w : World) : Prop :=
  markers_backed (DB w) /\ forall pool : nat, paired (mutation_pools w pool).

(** The type a cell makes the collection list, if it makes it list one:
    the cell is on the collection's row and its attribute is a marker. *)
Definition listed_by (self : AFF4Object) (c : Cell) : list string :=
  if rdfvalue.eqb (subject c) (urn self)
  then if startswith (attribute c) MultiTypeCollection.VALUE_TYPE_PREFIX
       then [slice_from (String.length MultiTypeCollection.VALUE_TYPE_PREFIX) (attribute c)]
       else []
  else [].

(** Every entry of a sequence is an envelope of the type the sequence is
    named after. *)
Definition well_routed (db : Store) : Prop :=
  forall (u : RDFURN) (value_type : string) (k : Key) (m : GrrMessage),
    In (k, m) (sequential_collection.entries db (rdfvalue.Add u value_type)) ->
    MultiTypeCollection.value_type_of m = value_type.

(** No row of the store is in use for the key [k] of the type yet. *)
Definition key_is_free (db : Store) (collection_urn : RDFURN) (value_type : string)
    (k : Key) : bool :=
  negb (has_attribute db (entry_row collection_urn value_type k) ATTRIBUTE).

End reach.

(** * Properties *)

Import rdfvalue rdf_flows data_store pools aff4 driver view.
Import sequential_collection(Key, Stamp, Micros, WithSuffix, ATTRIBUTE,
  key_leb, key_ltb, entries, entry_at, sort_by_key, insert_by_key, stamp_of).

(** ** Strings: prefix and slice *)

Lemma prefix_append (p t : string) : String.prefix p (String.append p t) = true.
Proof.
  induction p as [|a p IH]; simpl.
  - destruct t; reflexivity.
  - destruct (ascii_dec a a) as [_|ne]; [exact IH | now elim ne].
Qed.

Lemma slice_from_append (p t : string) :
  slice_from (String.length p) (String.append p t) = t.
Proof. induction p as [|a p IH]; simpl; [reflexivity | exact IH]. Qed.

Lemma prefix_slice (p s : string) :
  String.prefix p s = true -> s = String.append p (slice_from (String.length p) s).
Proof.
  revert s; induction p as [|a p IH]; intros s H; simpl.
  - reflexivity.
  - destruct s as [|b s]; simpl in H; [discriminate|].
    destruct (ascii_dec a b) as [->|]; [|discriminate].
    f_equal. now apply IH.
Qed.

Lemma append_inj_r (p s t : string) : String.append p s = String.append p t -> s = t.
Proof.
  induction p as [|a p IH]; simpl; intro H; [exact H|].
  injection H as H. now apply IH.
Qed.

(** ** Addresses *)

Lemma component_eqb_eq (a b : Component) : component_eqb a b = true <-> a = b.
Proof.
  destruct a as [s|t1 s1], b as [t|t2 s2]; simpl; split; intro H;
    try discriminate; try congruence.
  - apply String.eqb_eq in H. now subst.
  - injection H as ->. apply String.eqb_refl.
  - apply andb_true_iff in H as [H1 H2].
    apply Z.eqb_eq in H1, H2. now subst.
  - injection H as -> ->. now rewrite !Z.eqb_refl.
Qed.

Lemma urn_eqb_eq (u v : RDFURN) : rdfvalue.eqb u v = true <-> u = v.
Proof.
  revert v; induction u as [|a u IH]; intros [|b v]; simpl; split; intro H;
    try discriminate; try reflexivity.
  - apply andb_true_iff in H as [H1 H2].
    apply component_eqb_eq in H1. apply IH in H2. now subst.
  - injection H as -> ->. apply andb_true_iff; split.
    + now apply component_eqb_eq.
    + now apply IH.
Qed.

Lemma urn_eqb_refl (u : RDFURN) : rdfvalue.eqb u u = true.
Proof. now apply urn_eqb_eq. Qed.

Lemma under_app (p r : RDFURN) : under p (p ++ r) = true.
Proof.
  induction p as [|a p IH]; simpl; [reflexivity|].
  rewrite IH, andb_true_r. now apply component_eqb_eq.
Qed.

Lemma under_inv (p u : RDFURN) : under p u = true -> exists r, u = p ++ r.
Proof.
  revert u; induction p as [|a p IH]; intros u H; simpl in *.
  - now exists u.
  - destruct u as [|b u]; [discriminate|].
    apply andb_true_iff in H as [H1 H2].
    apply component_eqb_eq in H1; subst b.
    destruct (IH _ H2) as [r ->]. now exists r.
Qed.

Lemma last_snoc (u : RDFURN) (c d : Component) : last (u ++ [c]) d = c.
Proof. apply last_last. Qed.

Lemma removelast_snoc (u : RDFURN) (c : Component) : removelast (u ++ [c]) = u.
Proof. apply removelast_last. Qed.

(** ** The monad *)

Ltac run_m :=
  unfold MultiTypeCollection.Add, MultiTypeCollection.StaticAdd,
    sequential_collection.StaticAdd, MutationPool_Set, DB_Set_now,
    MutationPool_Flush, MarkForDeletion, bind, ret, raise, gets, modify;
  simpl.

(** ** What one call of [StaticAdd] does *)

(** Without a mutation pool the store receives the entry and then the
    marker, and nothing else changes. *)
Lemma StaticAdd_direct (u : RDFURN) (t : Token) (v : RDFValue)
    (ts sfx : option Z) (w : World) :
  MultiTypeCollection.StaticAdd u t (Some v) ts sfx None w
  = (inr None,
     {| DB := apply_request
                (apply_request (DB w)
                   (entry_request u (MultiTypeCollection.envelope v) (key_in w ts sfx)))
                (marker_request u (MultiTypeCollection.envelope v));
        mutation_pools := mutation_pools w;
        deletion_pools := deletion_pools w;
        now := now w;
        random := random w |}).
Proof. destruct ts, sfx; reflexivity. Qed.

(** With a mutation pool the two writes are staged in it, in that order, and
    the store is left alone. *)
Lemma StaticAdd_pooled (u : RDFURN) (t : Token) (v : RDFValue)
    (ts sfx : option Z) (pool : nat) (w : World) :
  MultiTypeCollection.StaticAdd u t (Some v) ts sfx (Some pool) w
  = (inr None,
     {| DB := DB w;
        mutation_pools :=
          upd (upd (mutation_pools w) pool
                 (mutation_pools w pool
                    ++ [entry_request u (MultiTypeCollection.envelope v) (key_in w ts sfx)]))
              pool
              (upd (mutation_pools w) pool
                 (mutation_pools w pool
                    ++ [entry_request u (MultiTypeCollection.envelope v) (key_in w ts sfx)])
                 pool
               ++ [marker_request u (MultiTypeCollection.envelope v)]);
        deletion_pools := deletion_pools w;
        now := now w;
        random := random w |}).
Proof. destruct ts, sfx; reflexivity. Qed.

Lemma upd_same {A : Type} (f : nat -> A) (k : nat) (v : A) : upd f k v k = v.
Proof. unfold upd. now rewrite Nat.eqb_refl. Qed.

Lemma upd_other {A : Type} (f : nat -> A) (k j : nat) (v : A) :
  j <> k -> upd f k v j = f j.
Proof. intro H. unfold upd. apply Nat.eqb_neq in H. now rewrite H. Qed.

(** ** The value of a call *)

(** C1 (what the code does): for every payload that is not [None], [Add] and
    the [StaticAdd] it delegates to evaluate to [None], with or without a
    mutation pool: the ordering key the sequence primitive hands back is
    dropped, although the docstrings promise "the pair (timestamp, suffix)
    which identifies the value within the collection". *)
Theorem Add_evaluates_to_None (self : AFF4Object) (v : RDFValue)
    (ts sfx : option Z) (mutation_pool : option nat) (w : World) :
  fst (MultiTypeCollection.Add self (Some v) ts sfx mutation_pool w) = inr None
  /\ fst (MultiTypeCollection.StaticAdd (urn self) (token self) (Some v) ts sfx mutation_pool w)
     = inr None
  /\ fst (sequential_collection.StaticAdd
            (rdfvalue.Add (urn self)
               (MultiTypeCollection.value_type_of (MultiTypeCollection.envelope v)))
            (token self) (MultiTypeCollection.envelope v) ts sfx mutation_pool w)
     = inr (key_in w ts sfx).
Proof.
  unfold MultiTypeCollection.Add.
  destruct mutation_pool as [pool|].
  - rewrite StaticAdd_pooled. repeat split. destruct ts, sfx; reflexivity.
  - rewrite StaticAdd_direct. repeat split. destruct ts, sfx; reflexivity.
Qed.

(** The scenario of the documentation: a value of type "A" added at time 100
    with suffix 5 gives [None] where the key (100, 5) is promised. *)
Example Add_type_A_at_100_5 :
  fst (MultiTypeCollection.Add
         {| urn := [Name "collection"]; token := "token" |}
         (Some (Payload "A" "first")) (Some 100) (Some 5) None
         (empty_world 0 0))
  = inr None.
Proof. reflexivity. Qed.

(** ** A payload of [None] *)

(** C4: [Add] and [StaticAdd] called with [None] for the payload raise
    [ValueError] and hand back the very world they were given, whatever the
    other arguments: no entry is appended, no marker written, nothing staged
    in any pool. *)
Theorem Add_None_raises (self : AFF4Object) (ts sfx : option Z)
    (mutation_pool : option nat) (w : World) :
  MultiTypeCollection.Add self None ts sfx mutation_pool w
  = (inl (ValueError "Can't add None to MultiTypeCollection"), w)
  /\ MultiTypeCollection.StaticAdd (urn self) (token self) None ts sfx mutation_pool w
     = (inl (ValueError "Can't add None to MultiTypeCollection"), w).
Proof. split; reflexivity. Qed.

(** ** Where the writes go *)

(** C8: with a mutation pool, [StaticAdd] leaves the store as it was and
    appends to that one pool the write of the entry followed by the write of
    the marker, every other pool being untouched; without one, both writes
    reach the store and no pool changes.  [Add] is the same call. *)
Theorem StaticAdd_writes_one_channel (u : RDFURN) (t : Token) (v : RDFValue)
    (ts sfx : option Z) (w : World) :
  let m := MultiTypeCollection.envelope v in
  let k := key_in w ts sfx in
  (forall pool : nat,
     let w' := snd (MultiTypeCollection.StaticAdd u t (Some v) ts sfx (Some pool) w) in
     DB w' = DB w
     /\ mutation_pools w' pool
        = mutation_pools w pool ++ [entry_request u m k; marker_request u m]
     /\ (forall other : nat, other <> pool -> mutation_pools w' other = mutation_pools w other))
  /\ (let w' := snd (MultiTypeCollection.StaticAdd u t (Some v) ts sfx None w) in
      DB w' = apply_request (apply_request (DB w) (entry_request u m k)) (marker_request u m)
      /\ (forall pool : nat, mutation_pools w' pool = mutation_pools w pool)).
Proof.
  cbv zeta. split.
  - intro pool. rewrite StaticAdd_pooled. simpl. repeat split.
    + rewrite !upd_same. rewrite <- app_assoc. reflexivity.
    + intros other H. now rewrite !upd_other.
  - rewrite StaticAdd_direct. simpl. split; [reflexivity | intro; reflexivity].
Qed.

(** ** The store: what a write keeps *)

Lemma at_slot_eq (s : RDFURN) (a : string) (c : Cell) :
  at_slot s a c = true <-> subject c = s /\ attribute c = a.
Proof.
  unfold at_slot. rewrite andb_true_iff, urn_eqb_eq, String.eqb_eq. reflexivity.
Qed.

Lemma In_DB_Set (db : Store) (s : RDFURN) (a : string) (v : Value) (ts : Z) (c : Cell) :
  In c (DB_Set db s a v ts)
  <-> (In c db /\ at_slot s a c = false)
      \/ c = {| subject := s; attribute := a; value := v; timestamp := ts |}.
Proof.
  unfold DB_Set. rewrite in_app_iff, filter_In, negb_true_iff. simpl.
  intuition congruence.
Qed.

Lemma has_attribute_iff (db : Store) (s : RDFURN) (a : string) :
  has_attribute db s a = true <-> exists c, In c db /\ subject c = s /\ attribute c = a.
Proof.
  unfold has_attribute. rewrite existsb_exists.
  split; intros [c [Hin H]]; exists c; (split; [exact Hin|]); now apply at_slot_eq.
Qed.

Lemma has_attribute_DB_Set_same (db : Store) (s : RDFURN) (a : string) (v : Value) (ts : Z) :
  has_attribute (DB_Set db s a v ts) s a = true.
Proof.
  apply has_attribute_iff.
  exists {| subject := s; attribute := a; value := v; timestamp := ts |}.
  split; [apply In_DB_Set; now right | split; reflexivity].
Qed.

Lemma has_attribute_DB_Set_mono (db : Store) (s s' : RDFURN) (a a' : string)
    (v : Value) (ts : Z) :
  has_attribute db s a = true -> has_attribute (DB_Set db s' a' v ts) s a = true.
Proof.
  intro H. apply has_attribute_iff in H as [c [Hin [Hs Ha]]].
  destruct (at_slot s' a' c) eqn:E.
  - apply at_slot_eq in E as [E1 E2].
    assert (s = s') by congruence. assert (a = a') by congruence. subst.
    apply has_attribute_DB_Set_same.
  - apply has_attribute_iff. exists c. split; [|now split].
    apply In_DB_Set. left. now split.
Qed.

Lemma has_attribute_apply_mono (db : Store) (r : SetRequest) (s : RDFURN) (a : string) :
  has_attribute db s a = true -> has_attribute (apply_request db r) s a = true.
Proof. apply has_attribute_DB_Set_mono. Qed.

Lemma has_attribute_fold_mono (reqs : list SetRequest) (db : Store) (s : RDFURN) (a : string) :
  has_attribute db s a = true ->
  has_attribute (fold_left apply_request reqs db) s a = true.
Proof.
  revert db; induction reqs as [|r reqs IH]; intros db H; simpl; [exact H|].
  apply IH. now apply has_attribute_apply_mono.
Qed.

Lemma has_attribute_fold_In (reqs : list SetRequest) (db : Store) (r : SetRequest) :
  In r reqs ->
  has_attribute (fold_left apply_request reqs db) (req_subject r) (req_attribute r) = true.
Proof.
  revert db; induction reqs as [|r0 reqs IH]; intros db H; simpl; [contradiction|].
  destruct H as [->|H].
  - apply has_attribute_fold_mono. apply has_attribute_DB_Set_same.
  - now apply IH.
Qed.

(** ** The stored types *)

Lemma fold_left_snoc {A B : Type} (g : A -> list B) (step : list B -> A -> list B) :
  (forall res x, step res x = res ++ g x) ->
  forall (l : list A) (acc : list B), fold_left step l acc = acc ++ flat_map g l.
Proof.
  intros Hstep l; induction l as [|x l IH]; intro acc; simpl.
  - now rewrite app_nil_r.
  - rewrite IH, Hstep, <- app_assoc. reflexivity.
Qed.

(** The loop of [ListStoredTypes], read as a comprehension. *)
Lemma ListStoredTypes_flat_map (self : AFF4Object) (db : Store) :
  MultiTypeCollection.ListStoredTypes self db
  = flat_map
      (fun row : string * Value * Z =>
         if startswith (fst (fst row)) MultiTypeCollection.VALUE_TYPE_PREFIX
         then [slice_from (String.length MultiTypeCollection.VALUE_TYPE_PREFIX) (fst (fst row))]
         else [])
      (ResolveRow db (urn self)).
Proof.
  unfold MultiTypeCollection.ListStoredTypes.
  rewrite fold_left_snoc with (g := fun row : string * Value * Z =>
         if startswith (fst (fst row)) MultiTypeCollection.VALUE_TYPE_PREFIX
         then [slice_from (String.length MultiTypeCollection.VALUE_TYPE_PREFIX) (fst (fst row))]
         else []); [reflexivity|].
  intros res [[a v] ts]. cbn [fst].
  destruct (startswith a MultiTypeCollection.VALUE_TYPE_PREFIX);
    [reflexivity | now rewrite app_nil_r].
Qed.

Lemma marker_roundtrip (value_type : string) :
  startswith (MultiTypeCollection.marker value_type) MultiTypeCollection.VALUE_TYPE_PREFIX = true
  /\ slice_from (String.length MultiTypeCollection.VALUE_TYPE_PREFIX)
       (MultiTypeCollection.marker value_type) = value_type.
Proof.
  unfold startswith, MultiTypeCollection.marker. split.
  - apply prefix_append.
  - apply slice_from_append.
Qed.

Lemma ListStoredTypes_In (self : AFF4Object) (db : Store) (value_type : string) :
  In value_type (MultiTypeCollection.ListStoredTypes self db)
  <-> has_attribute db (urn self) (MultiTypeCollection.marker value_type) = true.
Proof.
  rewrite ListStoredTypes_flat_map, in_flat_map, has_attribute_iff.
  unfold ResolveRow. split.
  - intros [[[a v] ts] [Hin H]]. cbn [fst] in H.
    apply in_map_iff in Hin as [c [Hc Hin]].
    apply filter_In in Hin as [Hin Hs]. apply urn_eqb_eq in Hs.
    injection Hc as Ha _ _. subst a.
    destruct (startswith (attribute c) MultiTypeCollection.VALUE_TYPE_PREFIX) eqn:E;
      [|contradiction].
    destruct H as [H|[]]. exists c. repeat split; try assumption.
    unfold startswith in E. apply prefix_slice in E. rewrite H in E. exact E.
  - intros [c [Hin [Hs Ha]]].
    exists (attribute c, value c, timestamp c). split.
    + apply in_map_iff. exists c. split; [reflexivity|].
      apply filter_In. split; [exact Hin | now apply urn_eqb_eq].
    + cbn [fst]. rewrite Ha.
      destruct (marker_roundtrip value_type) as [-> ->]. now left.
Qed.

(** ** Markers along a run *)

Lemma step_StaticAdd_None (u : RDFURN) (t : Token) (ts sfx : option Z)
    (mp : option nat) (w : World) :
  step w (Call_StaticAdd u t None ts sfx mp) = w.
Proof. reflexivity. Qed.

(** An attribute that a row carries stays on the row, whatever is called. *)
Lemma step_keeps_attribute (op : Op) (w : World) (s : RDFURN) (a : string) :
  has_attribute (DB w) s a = true -> has_attribute (DB (step w op)) s a = true.
Proof.
  intro H. destruct op as [u t [v|] ts sfx [pool|] | pool | clock draw];
    unfold step; try exact H.
  - rewrite StaticAdd_pooled. exact H.
  - rewrite StaticAdd_direct. simpl. now do 2 apply has_attribute_apply_mono.
  - simpl. now apply has_attribute_fold_mono.
Qed.

Lemma run_keeps_attribute (ops : list Op) (w : World) (s : RDFURN) (a : string) :
  has_attribute (DB w) s a = true -> has_attribute (DB (run ops w)) s a = true.
Proof.
  unfold run. revert w; induction ops as [|op ops IH]; intros w H; simpl; [exact H|].
  apply IH. now apply step_keeps_attribute.
Qed.

Lemma run_app (ops1 ops2 : list Op) (w : World) :
  run (ops1 ++ ops2) w = run ops2 (run ops1 w).
Proof. unfold run. apply fold_left_app. Qed.

Lemma run_cons (op : Op) (ops : list Op) (w : World) :
  run (op :: ops) w = run ops (step w op).
Proof. reflexivity. Qed.

(** A staged write stays staged until its pool is applied, and is on the
    row from then on. *)
Lemma step_keeps_staged (op : Op) (w : World) (pool : nat) (r : SetRequest) :
  In r (mutation_pools w pool)
  \/ has_attribute (DB w) (req_subject r) (req_attribute r) = true ->
  In r (mutation_pools (step w op) pool)
  \/ has_attribute (DB (step w op)) (req_subject r) (req_attribute r) = true.
Proof.
  intros [H|H]; [|right; now apply step_keeps_attribute].
  destruct op as [u t [v|] ts sfx [q|] | q | clock draw]; unfold step;
    try (now left).
  - rewrite StaticAdd_pooled. simpl. left.
    destruct (Nat.eq_dec pool q) as [->|ne].
    + rewrite !upd_same. apply in_or_app. left. apply in_or_app. now left.
    + now rewrite !upd_other.
  - rewrite StaticAdd_direct. simpl. now left.
  - simpl. destruct (Nat.eq_dec pool q) as [->|ne].
    + right. now apply has_attribute_fold_In.
    + left. now rewrite upd_other.
Qed.

Lemma run_keeps_staged (ops : list Op) (w : World) (pool : nat) (r : SetRequest) :
  In r (mutation_pools w pool)
  \/ has_attribute (DB w) (req_subject r) (req_attribute r) = true ->
  In r (mutation_pools (run ops w) pool)
  \/ has_attribute (DB (run ops w)) (req_subject r) (req_attribute r) = true.
Proof.
  unfold run. revert w; induction ops as [|op ops IH]; intros w H; simpl; [exact H|].
  apply IH. now apply step_keeps_staged.
Qed.

Lemma flush_writes_staged (w : World) (pool : nat) (r : SetRequest) :
  In r (mutation_pools w pool)
  \/ has_attribute (DB w) (req_subject r) (req_attribute r) = true ->
  has_attribute (DB (step w (Call_Flush pool))) (req_subject r) (req_attribute r) = true.
Proof.
  intros [H|H]; simpl.
  - now apply has_attribute_fold_In.
  - now apply has_attribute_fold_mono.
Qed.

(** C5: the prefix strip of [ListStoredTypes] undoes the prefix prepend of
    [StaticAdd]; a type is listed exactly when the row of the collection
    carries its marker; and in any run of calls, from any world, the type of
    every value added is listed at the end, once its marker write is through:
    at once for an add without a mutation pool, after the pool has been
    applied for an add with one.  This holds for every add of the run,
    whatever was called before, in between and after. *)
Theorem stored_types_are_discovered :
  (forall value_type : string,
     startswith (MultiTypeCollection.marker value_type)
       MultiTypeCollection.VALUE_TYPE_PREFIX = true
     /\ slice_from (String.length MultiTypeCollection.VALUE_TYPE_PREFIX)
          (MultiTypeCollection.marker value_type) = value_type)
  /\ (forall (self : AFF4Object) (db : Store) (value_type : string),
        In value_type (MultiTypeCollection.ListStoredTypes self db)
        <-> has_attribute db (urn self) (MultiTypeCollection.marker value_type) = true)
  /\ (forall (before after : list Op) (w : World) (self : AFF4Object)
             (v : RDFValue) (ts sfx : option Z),
        In (MultiTypeCollection.value_type_of (MultiTypeCollection.envelope v))
           (MultiTypeCollection.ListStoredTypes self
              (DB (run (before
                          ++ Call_StaticAdd (urn self) (token self) (Some v) ts sfx None
                          :: after) w))))
  /\ (forall (before between after : list Op) (w : World) (self : AFF4Object)
             (v : RDFValue) (ts sfx : option Z) (pool : nat),
        In (MultiTypeCollection.value_type_of (MultiTypeCollection.envelope v))
           (MultiTypeCollection.ListStoredTypes self
              (DB (run (before
                          ++ Call_StaticAdd (urn self) (token self) (Some v) ts sfx (Some pool)
                          :: between ++ Call_Flush pool :: after) w)))).
Proof.
  split; [exact marker_roundtrip|].
  split; [exact ListStoredTypes_In|].
  split.
  - intros before after w self v ts sfx.
    apply ListStoredTypes_In.
    rewrite run_app, run_cons. apply run_keeps_attribute.
    unfold step. rewrite StaticAdd_direct. simpl.
    apply has_attribute_DB_Set_same.
  - intros before between after w self v ts sfx pool.
    apply ListStoredTypes_In.
    rewrite run_app, run_cons, run_app, run_cons.
    apply run_keeps_attribute.
    apply (flush_writes_staged _ pool
             (marker_request (urn self) (MultiTypeCollection.envelope v))).
    apply run_keeps_staged. left.
    unfold step. rewrite StaticAdd_pooled. simpl.
    rewrite !upd_same. apply in_or_app. right. now left.
Qed.

(** ** Sorting by key *)

Lemma length_insert_by_key (e : Key * GrrMessage) (l : list (Key * GrrMessage)) :
  List.length (insert_by_key e l) = S (List.length l).
Proof.
  induction l as [|x l IH]; simpl; [reflexivity|].
  destruct (key_leb (fst e) (fst x)); simpl; [reflexivity | now rewrite IH].
Qed.

Lemma length_sort_by_key (l : list (Key * GrrMessage)) :
  List.length (sort_by_key l) = List.length l.
Proof.
  induction l as [|x l IH]; simpl; [reflexivity|].
  now rewrite length_insert_by_key, IH.
Qed.

Lemma In_insert_by_key (e x : Key * GrrMessage) (l : list (Key * GrrMessage)) :
  In x (insert_by_key e l) <-> x = e \/ In x l.
Proof.
  induction l as [|y l IH]; simpl; [intuition|].
  destruct (key_leb (fst e) (fst y)); simpl; [intuition|].
  rewrite IH. intuition.
Qed.

Lemma In_sort_by_key (x : Key * GrrMessage) (l : list (Key * GrrMessage)) :
  In x (sort_by_key l) <-> In x l.
Proof.
  induction l as [|y l IH]; simpl; [reflexivity|].
  rewrite In_insert_by_key, IH. intuition.
Qed.

Lemma key_leb_le (a b : Key) : key_leb a b = true <-> key_le a b.
Proof.
  unfold key_leb, key_le.
  rewrite orb_true_iff, andb_true_iff, Z.ltb_lt, Z.eqb_eq, Z.leb_le. reflexivity.
Qed.

Lemma key_leb_total (a b : Key) : key_leb a b = false -> key_le b a.
Proof.
  unfold key_leb, key_le. rewrite orb_false_iff, andb_false_iff.
  rewrite Z.ltb_ge, Z.eqb_neq, Z.leb_gt. lia.
Qed.

Lemma key_le_trans (a b c : Key) : key_le a b -> key_le b c -> key_le a c.
Proof. unfold key_le. lia. Qed.

Lemma insert_by_key_sorted (e : Key * GrrMessage) (l : list (Key * GrrMessage)) :
  StronglySorted by_key l -> StronglySorted by_key (insert_by_key e l).
Proof.
  induction 1 as [|x l Hs IH Hall]; simpl.
  - constructor; constructor.
  - destruct (key_leb (fst e) (fst x)) eqn:E.
    + apply key_leb_le in E. constructor.
      * now constructor.
      * constructor; [exact E|].
        rewrite Forall_forall in Hall |- *. intros y Hy.
        unfold by_key in *. eapply key_le_trans; [exact E | now apply Hall].
    + apply key_leb_total in E. constructor; [exact IH|].
      rewrite Forall_forall in Hall |- *. intros y Hy.
      apply In_insert_by_key in Hy as [->|Hy]; [exact E | now apply Hall].
Qed.

Lemma sort_by_key_sorted (l : list (Key * GrrMessage)) :
  StronglySorted by_key (sort_by_key l).
Proof.
  induction l as [|x l IH]; simpl; [constructor | now apply insert_by_key_sorted].
Qed.

Lemma filter_sorted {A : Type} (R : A -> A -> Prop) (p : A -> bool) (l : list A) :
  StronglySorted R l -> StronglySorted R (filter p l).
Proof.
  induction 1 as [|x l Hs IH Hall]; simpl; [constructor|].
  destruct (p x); [|exact IH].
  constructor; [exact IH|].
  rewrite Forall_forall in Hall |- *. intros y Hy.
  apply filter_In in Hy as [Hy _]. now apply Hall.
Qed.

Lemma In_firstn_In {A : Type} (n : nat) (l : list A) (x : A) :
  In x (firstn n l) -> In x l.
Proof.
  revert l; induction n as [|n IH]; intros [|y l] H; simpl in *; try contradiction.
  destruct H as [->|H]; [now left | right; now apply IH].
Qed.

Lemma firstn_sorted {A : Type} (R : A -> A -> Prop) (n : nat) (l : list A) :
  StronglySorted R l -> StronglySorted R (firstn n l).
Proof.
  intro H; revert n; induction H as [|x l Hs IH Hall]; intros [|n]; simpl;
    try constructor.
  - apply IH.
  - rewrite Forall_forall in Hall |- *. intros y Hy.
    apply Hall. eapply In_firstn_In. exact Hy.
Qed.

Lemma map_sorted {A B : Type} (R : A -> A -> Prop) (Q : B -> B -> Prop)
    (f : A -> B) (l : list A) :
  (forall x y, R x y -> Q (f x) (f y)) ->
  StronglySorted R l -> StronglySorted Q (map f l).
Proof.
  intro Hf. induction 1 as [|x l Hs IH Hall]; simpl; constructor; [exact IH|].
  rewrite Forall_forall in Hall |- *. intros y Hy.
  apply in_map_iff in Hy as [z [<- Hz]]. apply Hf. now apply Hall.
Qed.

Lemma stamp_of_le (include_suffix : bool) (a b : Key) :
  key_le a b -> stamp_le (stamp_of include_suffix a) (stamp_of include_suffix b).
Proof. unfold key_le, stamp_of, stamp_le. destruct include_suffix; lia. Qed.

(** Whatever the arguments, a scan reports times that never decrease. *)
Lemma Scan_sorted (db : Store) (seq : RDFURN) (after : option Key)
    (include_suffix : bool) (max_records : option nat) :
  StronglySorted stamp_le
    (map fst (sequential_collection.Scan db seq after include_suffix max_records)).
Proof.
  unfold sequential_collection.Scan. rewrite map_map. cbn [fst].
  apply map_sorted with (R := by_key).
  - intros x y. apply stamp_of_le.
  - destruct max_records as [n|]; [apply firstn_sorted|];
      (destruct after as [k|]; [apply filter_sorted|]); apply sort_by_key_sorted.
Qed.

Lemma Scan_all (db : Store) (seq : RDFURN) (include_suffix : bool) :
  sequential_collection.Scan db seq None include_suffix None
  = map (fun e => (stamp_of include_suffix (fst e), snd e))
        (sort_by_key (entries db seq)).
Proof. reflexivity. Qed.

Lemma length_seq_iter (db : Store) (seq : RDFURN) :
  List.length (sequential_collection.__iter__ db seq)
  = sequential_collection.__len__ db seq.
Proof.
  unfold sequential_collection.__iter__, sequential_collection.__len__.
  now rewrite Scan_all, length_map, length_sort_by_key.
Qed.

(** ** Counting and iterating *)

Lemma fold_left_plus {A : Type} (f : A -> nat) (l : list A) (acc : nat) :
  fold_left (fun n x => (n + f x)%nat) l acc = (acc + list_sum (map f l))%nat.
Proof.
  revert acc; induction l as [|x l IH]; intro acc; simpl; [lia|].
  rewrite IH. lia.
Qed.

Lemma iter_drained (self : AFF4Object) (db : Store) :
  MultiTypeCollection.__iter__ self db
  = drained db (urn self) (MultiTypeCollection.ListStoredTypes self db).
Proof.
  unfold MultiTypeCollection.__iter__, drained. cbv zeta.
  rewrite flat_map_concat_map, map_map, <- flat_map_concat_map. reflexivity.
Qed.

Lemma len_sum (self : AFF4Object) (db : Store) :
  MultiTypeCollection.__len__ self db
  = list_sum (map (MultiTypeCollection.LengthByType self db)
                  (MultiTypeCollection.ListStoredTypes self db)).
Proof.
  unfold MultiTypeCollection.__len__. cbv zeta.
  rewrite fold_left_plus, map_map. reflexivity.
Qed.

(** C3: for every collection and every state of the store, [__len__] is the
    sum of [LengthByType] over the types [ListStoredTypes] returns, and it is
    the number of entries [__iter__] yields.  The count is a function of the
    object's address and of the store as it is when the call is made, the
    object keeping no count of its own: after any further call the same
    equations hold for the store that call left. *)
Theorem len_is_sum_and_iteration_count (self : AFF4Object) (db : Store) :
  MultiTypeCollection.__len__ self db
  = list_sum (map (MultiTypeCollection.LengthByType self db)
                  (MultiTypeCollection.ListStoredTypes self db))
  /\ MultiTypeCollection.__len__ self db
     = List.length (MultiTypeCollection.__iter__ self db)
  /\ (forall (w : World) (op : Op),
        MultiTypeCollection.__len__ self (DB (step w op))
        = list_sum (map (MultiTypeCollection.LengthByType self (DB (step w op)))
                        (MultiTypeCollection.ListStoredTypes self (DB (step w op))))).
Proof.
  split; [apply len_sum|]. split; [|intros; apply len_sum].
  rewrite len_sum, iter_drained. unfold drained.
  rewrite length_flat_map. f_equal. apply map_ext. intro t.
  unfold MultiTypeCollection.LengthByType. cbv zeta.
  symmetry. apply length_seq_iter.
Qed.

(** ** One cell per attribute of a row *)

Lemma slots_unique_DB_Set (db : Store) (s : RDFURN) (a : string) (v : Value) (ts : Z) :
  slots_unique db -> slots_unique (DB_Set db s a v ts).
Proof.
  unfold slots_unique, DB_Set. intro H.
  rewrite map_app. simpl.
  assert (Hf : NoDup (map (fun c => (subject c, attribute c))
                          (filter (fun c => negb (at_slot s a c)) db))).
  { induction db as [|c db IH]; simpl in *; [constructor|].
    inversion H as [|x l Hnotin Hnd]; subst.
    destruct (at_slot s a c); simpl; [now apply IH|].
    constructor; [|now apply IH].
    intro Hin. apply Hnotin.
    apply in_map_iff in Hin as [c' [E Hc']].
    apply filter_In in Hc' as [Hc' _].
    apply in_map_iff. now exists c'. }
  apply NoDup_app. repeat split.
  - exact Hf.
  - constructor; [intros []| constructor].
  - intros x Hin [<-|[]].
    apply in_map_iff in Hin as [c [E Hc]].
    apply filter_In in Hc as [_ Hc]. apply negb_true_iff in Hc.
    injection E as E1 E2.
    assert (at_slot s a c = true) by now apply at_slot_eq.
    congruence.
Qed.

Lemma slots_unique_fold (reqs : list SetRequest) (db : Store) :
  slots_unique db -> slots_unique (fold_left apply_request reqs db).
Proof.
  revert db; induction reqs as [|r reqs IH]; intros db H; simpl; [exact H|].
  apply IH. now apply slots_unique_DB_Set.
Qed.

(** Every call keeps the store free of doubled attributes. *)
Lemma step_slots_unique (op : Op) (w : World) :
  slots_unique (DB w) -> slots_unique (DB (step w op)).
Proof.
  intro H. destruct op as [u t [v|] ts sfx [pool|] | pool | clock draw];
    unfold step; try exact H.
  - rewrite StaticAdd_pooled. exact H.
  - rewrite StaticAdd_direct. simpl. now do 2 apply slots_unique_DB_Set.
  - simpl. now apply slots_unique_fold.
Qed.

Lemma run_slots_unique (ops : list Op) (w : World) :
  slots_unique (DB w) -> slots_unique (DB (run ops w)).
Proof.
  unfold run. revert w; induction ops as [|op ops IH]; intros w H; simpl; [exact H|].
  apply IH. now apply step_slots_unique.
Qed.

(** In a store without doubled attributes no type is listed twice. *)
Lemma ListStoredTypes_NoDup (self : AFF4Object) (db : Store) :
  slots_unique db -> NoDup (MultiTypeCollection.ListStoredTypes self db).
Proof.
  induction db as [|c db IH]; intro H.
  - constructor.
  - inversion H as [|x l Hnotin Hnd]; subst.
    specialize (IH Hnd).
    rewrite ListStoredTypes_flat_map in IH |- *.
    unfold ResolveRow in *. cbn [filter].
    destruct (rdfvalue.eqb (subject c) (urn self)) eqn:Es; [|exact IH].
    cbn [map flat_map fst].
    destruct (startswith (attribute c) MultiTypeCollection.VALUE_TYPE_PREFIX) eqn:Ep;
      [|exact IH].
    cbn [app]. constructor; [|exact IH].
    intro Hin. apply Hnotin.
    fold (ResolveRow db (urn self)) in Hin.
    rewrite <- ListStoredTypes_flat_map in Hin.
    apply ListStoredTypes_In in Hin.
    apply has_attribute_iff in Hin as [c' [Hc' [Hs Ha]]].
    apply in_map_iff. exists c'. split; [|exact Hc'].
    apply urn_eqb_eq in Es.
    unfold startswith in Ep. apply prefix_slice in Ep.
    unfold MultiTypeCollection.marker in Ha.
    f_equal; congruence.
Qed.

Lemma drained_app (db : Store) (u : RDFURN) (l1 l2 : list string) :
  drained db u (l1 ++ l2) = drained db u l1 ++ drained db u l2.
Proof. unfold drained. apply flat_map_app. Qed.

Lemma drained_cons (db : Store) (u : RDFURN) (t : string) (l : list string) :
  drained db u (t :: l)
  = sequential_collection.__iter__ db (rdfvalue.Add u t) ++ drained db u l.
Proof. reflexivity. Qed.

(** C6: when [ListStoredTypes] returns the type [A] somewhere before the
    type [B], the entries [__iter__] yields are, in this order: those of the
    types listed before [A]; the whole sequence of [A]; those of the types
    listed between the two; the whole sequence of [B]; those of the types
    listed after [B].  The part of a type is its complete scan, in key order,
    so the entries of two types are never merged by timestamp.  In a store
    that holds each attribute of a row once, as every store does that was
    written through [Set], the listed types are pairwise distinct: the part
    of [A] is the only place where entries of [A] appear. *)
Theorem iteration_is_type_by_type (self : AFF4Object) (db : Store)
    (before : list string) (A : string) (between : list string) (B : string)
    (after : list string) :
  slots_unique db ->
  MultiTypeCollection.ListStoredTypes self db = before ++ A :: between ++ B :: after ->
  MultiTypeCollection.__iter__ self db
  = drained db (urn self) before
    ++ MultiTypeCollection.ScanByType self db A None true None
    ++ drained db (urn self) between
    ++ MultiTypeCollection.ScanByType self db B None true None
    ++ drained db (urn self) after
  /\ StronglySorted stamp_le
       (map fst (MultiTypeCollection.ScanByType self db A None true None))
  /\ StronglySorted stamp_le
       (map fst (MultiTypeCollection.ScanByType self db B None true None))
  /\ NoDup (before ++ A :: between ++ B :: after).
Proof.
  intros Hu Hl. repeat split.
  - rewrite iter_drained, Hl.
    rewrite drained_app, drained_cons, drained_app, drained_cons. reflexivity.
  - apply Scan_sorted.
  - apply Scan_sorted.
  - rewrite <- Hl. now apply ListStoredTypes_NoDup.
Qed.

Example scenario_iteration :
  MultiTypeCollection.ListStoredTypes scenario.collection (DB scenario.final) = ["A"; "B"]
  /\ MultiTypeCollection.__iter__ scenario.collection (DB scenario.final)
     = [ (WithSuffix 100 5, {| args_rdf_name := Some "A"; args := "first" |});
         (WithSuffix 100 7, {| args_rdf_name := Some "A"; args := "second" |});
         (WithSuffix 50 42, {| args_rdf_name := Some "B"; args := "third" |}) ]
  /\ MultiTypeCollection.__len__ scenario.collection (DB scenario.final) = 3%nat.
Proof. repeat split. Qed.

Lemma iteration_is_type_by_type_witness :
  slots_unique (DB scenario.final)
  /\ MultiTypeCollection.ListStoredTypes scenario.collection (DB scenario.final)
     = [] ++ "A" :: [] ++ "B" :: []
  /\ (MultiTypeCollection.__iter__ scenario.collection (DB scenario.final)
      = drained (DB scenario.final) (urn scenario.collection) []
        ++ MultiTypeCollection.ScanByType scenario.collection (DB scenario.final)
             "A" None true None
        ++ drained (DB scenario.final) (urn scenario.collection) []
        ++ MultiTypeCollection.ScanByType scenario.collection (DB scenario.final)
             "B" None true None
        ++ drained (DB scenario.final) (urn scenario.collection) []
      /\ StronglySorted stamp_le
           (map fst (MultiTypeCollection.ScanByType scenario.collection
                       (DB scenario.final) "A" None true None))
      /\ StronglySorted stamp_le
           (map fst (MultiTypeCollection.ScanByType scenario.collection
                       (DB scenario.final) "B" None true None))
      /\ NoDup ([] ++ "A" :: [] ++ "B" :: [])).
Proof.
  assert (Hu : slots_unique (DB scenario.final)).
  { apply run_slots_unique. constructor. }
  split; [exact Hu|]. split; [reflexivity|].
  apply (iteration_is_type_by_type scenario.collection (DB scenario.final)
           [] "A" [] "B" []); [exact Hu | reflexivity].
Defined.

(** ** What a scan finds *)

Lemma In_entries (db : Store) (seq : RDFURN) (e : Key * GrrMessage) :
  In e (entries db seq) <-> exists c, In c db /\ entry_at seq c = Some e.
Proof.
  unfold entries. rewrite in_flat_map. split; intros [c [Hin H]]; exists c;
    (split; [exact Hin|]).
  - destruct (entry_at seq c) as [e'|]; [|contradiction].
    destruct H as [->|[]]. reflexivity.
  - rewrite H. now left.
Qed.

(** The cell of an entry is read back as that entry. *)
Lemma entry_at_entry_cell (seq : RDFURN) (k : Key) (m : GrrMessage) (ts : Z) :
  entry_at seq
    {| subject := seq ++ [Slot (fst k) (snd k)]; attribute := ATTRIBUTE;
       value := Blob m; timestamp := ts |}
  = Some (k, m).
Proof.
  unfold entry_at. cbn [subject attribute value].
  rewrite String.eqb_refl, last_snoc, removelast_snoc, urn_eqb_refl.
  now destruct k.
Qed.

(** What a cell must be to hold an entry. *)
Lemma entry_at_inv (seq : RDFURN) (c : Cell) (k : Key) (m : GrrMessage) :
  entry_at seq c = Some (k, m) ->
  subject c = seq ++ [Slot (fst k) (snd k)]
  /\ attribute c = ATTRIBUTE /\ value c = Blob m.
Proof.
  unfold entry_at.
  destruct (String.eqb (attribute c) ATTRIBUTE) eqn:Ea; [|discriminate].
  apply String.eqb_eq in Ea.
  destruct (subject c) as [|x s] eqn:Es using rev_ind; [discriminate|].
  rewrite last_snoc, removelast_snoc.
  destruct x as [n|t s']; [discriminate|].
  destruct (value c) as [n|m']; [discriminate|].
  destruct (rdfvalue.eqb s seq) eqn:E; [|discriminate].
  apply urn_eqb_eq in E. intro H. injection H as <- <-. subst. now repeat split.
Qed.

Lemma snoc2_neq (u : RDFURN) (a b : Component) : u ++ [a; b] <> u.
Proof.
  intro H. apply (f_equal (@List.length _)) in H.
  rewrite length_app in H. simpl in H. lia.
Qed.

Lemma entry_row_not_collection (u : RDFURN) (value_type : string) (k : Key) :
  entry_row u value_type k <> u.
Proof.
  unfold entry_row, rdfvalue.Add. rewrite <- app_assoc. apply snoc2_neq.
Qed.

(** After the two writes of an add the entry is among those of its sequence. *)
Lemma entry_after_writes (db : Store) (u : RDFURN) (m : GrrMessage) (k : Key) :
  In (k, m)
     (entries (apply_request (apply_request db (entry_request u m k)) (marker_request u m))
        (rdfvalue.Add u (MultiTypeCollection.value_type_of m))).
Proof.
  apply In_entries.
  exists {| subject := entry_row u (MultiTypeCollection.value_type_of m) k;
            attribute := ATTRIBUTE; value := Blob m; timestamp := fst k |}.
  split.
  - unfold apply_request at 1. apply In_DB_Set. left. split.
    + unfold apply_request. apply In_DB_Set. now right.
    + destruct (at_slot _ _ _) eqn:E; [|reflexivity].
      apply at_slot_eq in E as [E _]. simpl in E.
      now apply entry_row_not_collection in E.
  - apply entry_at_entry_cell.
Qed.

Lemma fold_left_snoc2 (reqs : list SetRequest) (db : Store) (r1 r2 : SetRequest) :
  fold_left apply_request (reqs ++ [r1; r2]) db
  = apply_request (apply_request (fold_left apply_request reqs db) r1) r2.
Proof. now rewrite fold_left_app. Qed.

Lemma In_Scan_all (db : Store) (seq : RDFURN) (include_suffix : bool)
    (k : Key) (m : GrrMessage) :
  In (k, m) (entries db seq) ->
  In (stamp_of include_suffix k, m)
     (sequential_collection.Scan db seq None include_suffix None).
Proof.
  intro H. rewrite Scan_all. apply in_map_iff. exists (k, m).
  split; [reflexivity | now apply In_sort_by_key].
Qed.

(** C2: [Add] stores a [GrrMessage] as it is and any other value wrapped as
    [GrrMessage(payload=value)]; the type it routes by is the envelope's
    payload type name, and "GrrMessage" when the envelope names none (no name
    or the empty one); and a [ScanByType] of that type that follows the add
    yields the envelope under the key the add took, the times of the scan
    never decreasing.  With a mutation pool the same holds once the pool has
    been applied. *)
Theorem added_value_is_scanned (self : AFF4Object) (v : RDFValue)
    (ts sfx : option Z) (include_suffix : bool) (w : World) :
  let m := MultiTypeCollection.envelope v in
  let value_type := MultiTypeCollection.value_type_of m in
  let k := key_in w ts sfx in
  (forall m0 : GrrMessage, MultiTypeCollection.envelope (Message m0) = m0)
  /\ (forall class_name serialized : string,
        MultiTypeCollection.envelope (Payload class_name serialized)
        = GrrMessage_of_payload class_name serialized)
  /\ (forall name : string,
        args_rdf_name m = Some name -> name <> EmptyString -> value_type = name)
  /\ (args_rdf_name m = None \/ args_rdf_name m = Some EmptyString ->
      value_type = GrrMessage__name__)
  /\ (let w' := snd (MultiTypeCollection.Add self (Some v) ts sfx None w) in
      In (stamp_of include_suffix k, m)
         (MultiTypeCollection.ScanByType self (DB w') value_type None include_suffix None)
      /\ StronglySorted stamp_le
           (map fst (MultiTypeCollection.ScanByType self (DB w') value_type
                       None include_suffix None)))
  /\ (forall pool : nat,
        let w' := snd (MutationPool_Flush pool
                         (snd (MultiTypeCollection.Add self (Some v) ts sfx (Some pool) w))) in
        In (stamp_of include_suffix k, m)
           (MultiTypeCollection.ScanByType self (DB w') value_type None include_suffix None)
        /\ StronglySorted stamp_le
             (map fst (MultiTypeCollection.ScanByType self (DB w') value_type
                         None include_suffix None))).
Proof.
  cbv zeta. split; [reflexivity|]. split; [reflexivity|].
  split; [|split; [|split]].
  - intros name Hn Hne. unfold MultiTypeCollection.value_type_of. rewrite Hn. simpl.
    destruct (String.eqb_spec name EmptyString); [contradiction | reflexivity].
  - unfold MultiTypeCollection.value_type_of. intros [-> | ->]; reflexivity.
  - unfold MultiTypeCollection.Add. rewrite StaticAdd_direct. cbn [snd DB].
    split; [|apply Scan_sorted].
    unfold MultiTypeCollection.ScanByType. cbv zeta. cbn [FACTORY_Create urn].
    apply In_Scan_all. apply entry_after_writes.
  - intro pool. unfold MultiTypeCollection.Add. rewrite StaticAdd_pooled.
    split; [|apply Scan_sorted].
    unfold MultiTypeCollection.ScanByType. cbv zeta. cbn [FACTORY_Create urn].
    apply In_Scan_all.
    unfold MutationPool_Flush, modify. cbn [snd DB mutation_pools].
    rewrite !upd_same, <- app_assoc. cbn [app].
    rewrite fold_left_snoc2. apply entry_after_writes.
Qed.

(** ** Markers cover entries *)

Lemma markers_cover_iff (db : Store) :
  markers_cover db
  <-> forall (u : RDFURN) (value_type : string) (e : Key * GrrMessage),
        In e (entries db (rdfvalue.Add u value_type)) ->
        has_attribute db u (MultiTypeCollection.marker value_type) = true.
Proof.
  unfold markers_cover, MultiTypeCollection.LengthByType,
    sequential_collection.__len__. cbv zeta. cbn [FACTORY_Create urn].
  split.
  - intros H u value_type e He.
    apply (ListStoredTypes_In {| urn := u; token := EmptyString |}).
    apply H. cbn [urn].
    destruct (entries db (rdfvalue.Add u value_type)); [contradiction | simpl; lia].
  - intros H self value_type Hlen.
    apply ListStoredTypes_In.
    destruct (entries db (rdfvalue.Add (urn self) value_type)) as [|e l] eqn:E;
      [simpl in Hlen; lia|].
    apply (H (urn self) value_type e). rewrite E. now left.
Qed.

Lemma Add_inj (u u' : RDFURN) (t t' : string) :
  rdfvalue.Add u t = rdfvalue.Add u' t' -> u = u' /\ t = t'.
Proof.
  unfold rdfvalue.Add. intro H. apply app_inj_tail in H as [-> H].
  injection H as ->. now split.
Qed.

(** The two writes of an add keep the cover. *)
Lemma markers_cover_add (db : Store) (u : RDFURN) (m : GrrMessage) (k : Key) :
  markers_cover db ->
  markers_cover
    (apply_request (apply_request db (entry_request u m k)) (marker_request u m)).
Proof.
  rewrite !markers_cover_iff. intros H u' value_type [k' m'] He.
  apply In_entries in He as [c [Hc He]].
  apply entry_at_inv in He as Hinv. destruct Hinv as [Hs [Ha Hv]].
  unfold apply_request at 1 in Hc. apply In_DB_Set in Hc as [[Hc _]|Hc].
  - unfold apply_request in Hc. apply In_DB_Set in Hc as [[Hc _]|Hc].
    + do 2 apply has_attribute_apply_mono.
      apply (H u' value_type (k', m')). apply In_entries. now exists c.
    + subst c. cbn [subject req_subject entry_request] in Hs.
      unfold entry_row in Hs. apply app_inj_tail in Hs as [Hs _].
      apply Add_inj in Hs as [<- <-].
      apply has_attribute_DB_Set_same.
  - subst c. cbn [value req_value marker_request] in Hv. discriminate.
Qed.

Lemma markers_cover_paired (reqs : list SetRequest) (db : Store) :
  paired reqs -> markers_cover db -> markers_cover (fold_left apply_request reqs db).
Proof.
  intros Hp Hc. induction Hp as [|reqs u m k Hp IH]; [exact Hc|].
  rewrite fold_left_snoc2. now apply markers_cover_add.
Qed.

(** Every call keeps the world well kept. *)
Lemma step_well_kept (op : Op) (w : World) : well_kept w -> well_kept (step w op).
Proof.
  intros [Hc Hp]. destruct op as [u t [v|] ts sfx [pool|] | pool | clock draw];
    unfold step; try (split; assumption).
  - rewrite StaticAdd_pooled. cbn [snd]. split; [exact Hc|].
    intro q. cbn [mutation_pools].
    destruct (Nat.eq_dec q pool) as [->|ne].
    + rewrite !upd_same, <- app_assoc. cbn [app]. now constructor.
    + rewrite !upd_other by exact ne. apply Hp.
  - rewrite StaticAdd_direct. cbn [snd]. split; [|exact Hp].
    cbn [DB]. now apply markers_cover_add.
  - unfold MutationPool_Flush, modify. cbn [snd]. split.
    + cbn [DB]. now apply markers_cover_paired.
    + intro q. cbn [mutation_pools].
      destruct (Nat.eq_dec q pool) as [->|ne].
      * rewrite upd_same. constructor.
      * rewrite upd_other by exact ne. apply Hp.
Qed.

Lemma run_well_kept (ops : list Op) (w : World) : well_kept w -> well_kept (run ops w).
Proof.
  unfold run. revert w; induction ops as [|op ops IH]; intros w H; simpl; [exact H|].
  apply IH. now apply step_well_kept.
Qed.

Lemma empty_world_well_kept (clock draw : Z) : well_kept (empty_world clock draw).
Proof.
  split.
  - intros self value_type H. cbn in H. lia.
  - intro pool. constructor.
Qed.

(** C7: every add that goes through writes the marker of its type with the
    value 1 and the timestamp 0, whatever the timestamp of the entry, and
    writes it after the entry: second in the store, second in the pool.
    Hence the cover: in every world that calls of [StaticAdd] and
    applications of pools lead to, from the empty one or from any world
    where the cover holds, each type that has an entry under a collection is
    among the types listed for it.  (The cover is stated for the worlds
    between calls; inside a call, between the two writes, it can fail, see
    [window_between_the_writes].) *)
Theorem marker_is_fixed_and_follows_entry :
  (forall (u : RDFURN) (t : Token) (v : RDFValue) (ts sfx : option Z) (w : World),
     let m := MultiTypeCollection.envelope v in
     let value_type := MultiTypeCollection.value_type_of m in
     let the_marker :=
       {| req_subject := u;
          req_attribute := String.append MultiTypeCollection.VALUE_TYPE_PREFIX value_type;
          req_value := Int 1;
          req_timestamp := 0 |} in
     DB (snd (MultiTypeCollection.StaticAdd u t (Some v) ts sfx None w))
     = apply_request
         (apply_request (DB w) (entry_request u m (key_in w ts sfx))) the_marker
     /\ In {| subject := u;
              attribute := String.append MultiTypeCollection.VALUE_TYPE_PREFIX value_type;
              value := Int 1;
              timestamp := 0 |}
           (DB (snd (MultiTypeCollection.StaticAdd u t (Some v) ts sfx None w)))
     /\ (forall pool : nat,
           mutation_pools
             (snd (MultiTypeCollection.StaticAdd u t (Some v) ts sfx (Some pool) w)) pool
           = mutation_pools w pool ++ [entry_request u m (key_in w ts sfx); the_marker]))
  /\ (forall clock draw : Z, well_kept (empty_world clock draw))
  /\ (forall (ops : list Op) (w : World), well_kept w -> well_kept (run ops w))
  /\ (forall (ops : list Op) (clock draw : Z) (self : AFF4Object) (value_type : string),
        (0 < MultiTypeCollection.LengthByType self
               (DB (run ops (empty_world clock draw))) value_type)%nat ->
        In value_type
           (MultiTypeCollection.ListStoredTypes self
              (DB (run ops (empty_world clock draw))))).
Proof.
  split; [|split; [exact empty_world_well_kept | split; [exact run_well_kept|]]].
  - intros u t v ts sfx w. cbv zeta. repeat split.
    + rewrite StaticAdd_direct. reflexivity.
    + rewrite StaticAdd_direct. cbn [snd DB].
      unfold apply_request at 1. apply In_DB_Set. now right.
    + intro pool. rewrite StaticAdd_pooled. cbn [snd mutation_pools].
      rewrite !upd_same, <- app_assoc. reflexivity.
  - intros ops clock draw.
    exact (proj1 (run_well_kept ops _ (empty_world_well_kept clock draw))).
Qed.

(** Between the entry write and the marker write the type has an entry and
    is not listed. *)
Example window_between_the_writes :
  MultiTypeCollection.LengthByType scenario.collection (DB bases.unmarked) "A" = 1%nat
  /\ MultiTypeCollection.ListStoredTypes scenario.collection (DB bases.unmarked) = [].
Proof. split; reflexivity. Qed.

(** ** Deletion *)

Section OnDelete.

Context {base : AFF4Base}.

(** What the development asks of the base class's hook: it leaves the store
    alone, and it returns when it is given a deletion pool. *)
Hypothesis super_keeps_store :
  forall (self : AFF4Object) (deletion_pool : option nat) (w : World),
    DB (snd (super_OnDelete self deletion_pool w)) = DB w.

Hypothesis super_accepts_pool :
  forall (self : AFF4Object) (pool : nat) (w : World),
    fst (super_OnDelete self (Some pool) w) = inr tt.

(** The loop of [OnDelete] with a pool: every row is registered, in order. *)
Lemma mark_rows (pool : nat) (rows : list (RDFURN * Z * Value)) (w : World) :
  exists w' : World,
    for_each rows
      (fun row => let '(u, _, _) := row in
                  match Some pool with
                  | None => raise (AttributeError
                                     "'NoneType' object has no attribute 'MarkForDeletion'")
                  | Some p => MarkForDeletion p u
                  end) w
    = (inr tt, w')
    /\ DB w' = DB w
    /\ deletion_pools w' pool
       = deletion_pools w pool ++ map (fun row => fst (fst row)) rows.
Proof.
  revert w; induction rows as [|[[u ts] v] rows IH]; intro w.
  - exists w. simpl. rewrite app_nil_r. now repeat split.
  - cbn [for_each]. unfold bind at 1.
    unfold MarkForDeletion at 1, modify.
    match goal with |- context [for_each rows ?f ?w1] =>
      destruct (IH w1) as [w' [Hrun [Hdb Hpool]]] end.
    exists w'. split; [exact Hrun|]. split; [exact Hdb|].
    rewrite Hpool. cbn [deletion_pools map fst].
    rewrite upd_same, <- app_assoc. reflexivity.
Qed.

Lemma In_ScanAttribute (db : Store) (p : RDFURN) (a : string) (c : Cell) :
  In c db -> under p (subject c) = true -> attribute c = a ->
  In (subject c, timestamp c, value c) (ScanAttribute db p a).
Proof.
  intros Hin Hu Ha. unfold ScanAttribute. apply in_map_iff. exists c.
  split; [reflexivity|]. apply filter_In. split; [exact Hin|].
  rewrite Hu, Ha, String.eqb_refl. reflexivity.
Qed.

(** C9: given a deletion pool, [OnDelete] returns, leaves the store as it
    is, and has registered with the pool every row of the store that lies in
    the collection's key range and carries the sequence attribute.  The rows
    of the entries of every type are among them, whether or not the type is
    listed by [ListStoredTypes]: the scan does not go through the markers. *)
Theorem OnDelete_registers_every_row (self : AFF4Object) (pool : nat) (w : World) :
  let w' := snd (MultiTypeCollection.OnDelete self (Some pool) w) in
  fst (MultiTypeCollection.OnDelete self (Some pool) w) = inr tt
  /\ DB w' = DB w
  /\ (forall c : Cell,
        In c (DB w) -> under (urn self) (subject c) = true -> attribute c = ATTRIBUTE ->
        In (subject c) (deletion_pools w' pool))
  /\ (forall (value_type : string) (k : Key) (m : GrrMessage),
        In (k, m) (entries (DB w) (rdfvalue.Add (urn self) value_type)) ->
        In (entry_row (urn self) value_type k) (deletion_pools w' pool)).
Proof.
  cbv zeta. unfold MultiTypeCollection.OnDelete, bind, gets.
  pose proof (super_accepts_pool self pool w) as Hok.
  pose proof (super_keeps_store self (Some pool) w) as Hdb.
  destruct (super_OnDelete self (Some pool) w) as [[e|[]] w1]; simpl in Hok, Hdb;
    [discriminate|].
  destruct (mark_rows pool (ScanAttribute (DB w1) (urn self) ATTRIBUTE) w1)
    as [w' [Hrun [Hdb' Hpool]]].
  rewrite Hrun. cbn [fst snd].
  assert (Hrows : forall c : Cell,
             In c (DB w) -> under (urn self) (subject c) = true ->
             attribute c = ATTRIBUTE -> In (subject c) (deletion_pools w' pool)).
  { intros c Hin Hu Ha. rewrite Hpool. apply in_or_app. right.
    apply in_map_iff. exists (subject c, timestamp c, value c).
    split; [reflexivity|]. rewrite Hdb. now apply In_ScanAttribute. }
  split; [reflexivity|]. split; [congruence|]. split; [exact Hrows|].
  intros value_type k m He.
  apply In_entries in He as [c [Hin He]].
  apply entry_at_inv in He as [Hs [Ha _]].
  unfold entry_row. rewrite <- Hs. apply Hrows; [exact Hin | | exact Ha].
  rewrite Hs. unfold rdfvalue.Add. rewrite <- app_assoc. apply under_app.
Qed.


End OnDelete.

Lemma strict_keeps_store (self : AFF4Object) (deletion_pool : option nat) (w : World) :
  DB (snd (@super_OnDelete bases.strict self deletion_pool w)) = DB w.
Proof. destruct deletion_pool; reflexivity. Qed.

Lemma strict_accepts_pool (self : AFF4Object) (pool : nat) (w : World) :
  fst (@super_OnDelete bases.strict self (Some pool) w) = inr tt.
Proof. reflexivity. Qed.

Lemma silent_keeps_store (self : AFF4Object) (deletion_pool : option nat) (w : World) :
  DB (snd (@super_OnDelete bases.silent self deletion_pool w)) = DB w.
Proof. reflexivity. Qed.

Lemma OnDelete_registers_every_row_witness :
  fst (@MultiTypeCollection.OnDelete bases.strict scenario.collection (Some 0%nat)
         bases.unmarked) = inr tt
  /\ MultiTypeCollection.ListStoredTypes scenario.collection (DB bases.unmarked) = []
  /\ In [Name "collection"; Name "A"; Slot 100 5]
        (deletion_pools
           (snd (@MultiTypeCollection.OnDelete bases.strict scenario.collection
                   (Some 0%nat) bases.unmarked)) 0%nat).
Proof.
  pose proof (@OnDelete_registers_every_row bases.strict
                strict_keeps_store strict_accepts_pool
                scenario.collection 0%nat bases.unmarked) as H.
  cbv zeta in H. destruct H as [H1 [_ [_ H4]]].
  split; [exact H1|]. split; [reflexivity|].
  apply (H4 "A" (100, 5) {| args_rdf_name := Some "A"; args := "first" |}).
  simpl. now left.
Defined.



(** ** What an add leaves alone *)

Lemma entries_filter (db : Store) (seq : RDFURN) (keep : Cell -> bool) :
  (forall c, In c db -> keep c = false -> entry_at seq c = None) ->
  entries (filter keep db) seq = entries db seq.
Proof.
  unfold entries. induction db as [|c db IH]; intro H; simpl; [reflexivity|].
  destruct (keep c) eqn:E; simpl.
  - f_equal. apply IH. intros c' Hc'. apply H. now right.
  - rewrite (H c (or_introl eq_refl) E). simpl.
    apply IH. intros c' Hc'. apply H. now right.
Qed.

Lemma entries_app (db1 db2 : Store) (seq : RDFURN) :
  entries (db1 ++ db2) seq = entries db1 seq ++ entries db2 seq.
Proof. unfold entries. apply flat_map_app. Qed.

(** A write to a slot that holds no entry of the sequence, of a cell that is
    none either, leaves the entries of the sequence as they are. *)
Lemma entries_DB_Set_other (db : Store) (seq s : RDFURN) (a : string)
    (v : Value) (ts : Z) :
  (forall c, subject c = s -> attribute c = a -> entry_at seq c = None) ->
  entries (DB_Set db s a v ts) seq = entries db seq.
Proof.
  intro H. unfold DB_Set. rewrite entries_app, entries_filter.
  - unfold entries at 2. simpl.
    rewrite (H {| subject := s; attribute := a; value := v; timestamp := ts |}
               eq_refl eq_refl).
    simpl. apply app_nil_r.
  - intros c _ Hc. apply negb_false_iff, at_slot_eq in Hc as [Hs Ha].
    now apply H.
Qed.

Lemma marker_is_not_ATTRIBUTE (value_type : string) :
  MultiTypeCollection.marker value_type <> ATTRIBUTE.
Proof. unfold MultiTypeCollection.marker. simpl. discriminate. Qed.

Lemma entry_at_on_marker_slot (seq u : RDFURN) (value_type : string) (c : Cell) :
  subject c = u -> attribute c = MultiTypeCollection.marker value_type ->
  entry_at seq c = None.
Proof.
  intros _ Ha. unfold entry_at. rewrite Ha.
  destruct (String.eqb_spec (MultiTypeCollection.marker value_type) ATTRIBUTE) as [E|_];
    [now apply marker_is_not_ATTRIBUTE in E | reflexivity].
Qed.

(** An add to one type does not change the entries of another. *)
Lemma entries_of_other_type (db : Store) (u : RDFURN) (m : GrrMessage) (k : Key)
    (other : string) :
  other <> MultiTypeCollection.value_type_of m ->
  entries (apply_request (apply_request db (entry_request u m k)) (marker_request u m))
    (rdfvalue.Add u other)
  = entries db (rdfvalue.Add u other).
Proof.
  intro Hne. unfold apply_request.
  rewrite entries_DB_Set_other.
  - apply entries_DB_Set_other. intros c Hs _.
    destruct (entry_at (rdfvalue.Add u other) c) as [[k' m']|] eqn:E; [|reflexivity].
    apply entry_at_inv in E as [Hs' _]. cbn [req_subject entry_request] in Hs.
    rewrite Hs in Hs'. unfold entry_row in Hs'.
    apply app_inj_tail in Hs' as [Hs' _]. apply Add_inj in Hs' as [_ Ht].
    now elim Hne.
  - intros c Hs Ha. eapply entry_at_on_marker_slot; [exact Hs | exact Ha].
Qed.

(** X1 (type isolation): an add of a value of one type changes no scan and
    no length of any other type of the collection: what is added under one
    type never shows among the entries of another. *)
Theorem other_types_are_untouched (self : AFF4Object) (v : RDFValue)
    (ts sfx : option Z) (w : World) (other : string)
    (after : option Key) (include_suffix : bool) (max_records : option nat) :
  other <> MultiTypeCollection.value_type_of (MultiTypeCollection.envelope v) ->
  let w' := snd (MultiTypeCollection.Add self (Some v) ts sfx None w) in
  MultiTypeCollection.ScanByType self (DB w') other after include_suffix max_records
  = MultiTypeCollection.ScanByType self (DB w) other after include_suffix max_records
  /\ MultiTypeCollection.LengthByType self (DB w') other
     = MultiTypeCollection.LengthByType self (DB w) other.
Proof.
  intro Hne. cbv zeta. unfold MultiTypeCollection.Add. rewrite StaticAdd_direct.
  cbn [snd DB].
  unfold MultiTypeCollection.ScanByType, MultiTypeCollection.LengthByType,
    sequential_collection.Scan, sequential_collection.__len__.
  cbv zeta. cbn [FACTORY_Create urn].
  now rewrite entries_of_other_type.
Qed.

Lemma other_types_are_untouched_witness :
  MultiTypeCollection.ScanByType scenario.collection
    (DB (snd (MultiTypeCollection.Add scenario.collection
                (Some (Payload "C" "fourth")) (Some 70) (Some 1) None scenario.final)))
    "A" None true None
  = MultiTypeCollection.ScanByType scenario.collection (DB scenario.final)
      "A" None true None.
Proof.
  refine (proj1 (other_types_are_untouched scenario.collection
                   (Payload "C" "fourth") (Some 70) (Some 1) scenario.final
                   "A" None true None _)).
  simpl. discriminate.
Defined.

Lemma In_Scan_all_inv (db : Store) (seq : RDFURN) (k : Key) (m : GrrMessage) :
  In (stamp_of true k, m) (sequential_collection.Scan db seq None true None) ->
  In (k, m) (entries db seq).
Proof.
  rewrite Scan_all. intro H. apply in_map_iff in H as [[k' m'] [E Hin]].
  apply (proj1 (In_sort_by_key _ _)) in Hin. unfold stamp_of in E. cbn [fst snd] in E.
  injection E as E1 E2 E3. destruct k, k'; simpl in *; subst. exact Hin.
Qed.

(** X2 (no overwrite at another key): an entry that a complete scan of a
    type shows before an add is still shown after it, unless the add took
    the very same ordering key; two values of one type added in the same
    microsecond with different suffixes are both there. *)
Theorem add_keeps_other_keys (self : AFF4Object) (v : RDFValue)
    (ts sfx : option Z) (w : World) (value_type : string) (k0 : Key) (m0 : GrrMessage) :
  k0 <> key_in w ts sfx ->
  In (stamp_of true k0, m0)
     (MultiTypeCollection.ScanByType self (DB w) value_type None true None) ->
  In (stamp_of true k0, m0)
     (MultiTypeCollection.ScanByType self
        (DB (snd (MultiTypeCollection.Add self (Some v) ts sfx None w)))
        value_type None true None).
Proof.
  intros Hk H. unfold MultiTypeCollection.Add. rewrite StaticAdd_direct.
  cbn [snd DB]. unfold MultiTypeCollection.ScanByType in *. cbv zeta in *.
  cbn [FACTORY_Create urn] in *.
  apply In_Scan_all. apply In_Scan_all_inv in H.
  apply In_entries in H as [c [Hc He]]. apply In_entries. exists c.
  split; [|exact He].
  apply entry_at_inv in He as [Hs [Ha _]].
  unfold apply_request. apply In_DB_Set. left. split.
  - apply In_DB_Set. left. split; [exact Hc|].
    destruct (at_slot _ _ c) eqn:E; [|reflexivity].
    apply at_slot_eq in E as [E _]. cbn [req_subject entry_request] in E.
    rewrite Hs in E. unfold entry_row in E.
    apply app_inj_tail in E as [_ E]. injection E as E1 E2.
    elim Hk. apply injective_projections; [exact E1 | exact E2].
  - destruct (at_slot _ _ c) eqn:E; [|reflexivity].
    apply at_slot_eq in E as [_ E]. cbn [req_attribute marker_request] in E.
    rewrite Ha in E. symmetry in E. now apply marker_is_not_ATTRIBUTE in E.
Qed.

Lemma add_keeps_other_keys_witness :
  In (WithSuffix 100 7, {| args_rdf_name := Some "A"; args := "second" |})
     (MultiTypeCollection.ScanByType scenario.collection
        (DB (snd (MultiTypeCollection.Add scenario.collection
                    (Some (Payload "A" "again")) (Some 100) (Some 9) None scenario.final)))
        "A" None true None).
Proof.
  refine (add_keeps_other_keys scenario.collection (Payload "A" "again")
            (Some 100) (Some 9) scenario.final "A" (100, 7)
            {| args_rdf_name := Some "A"; args := "second" |} _ _).
  - discriminate.
  - simpl. right. now left.
Defined.

(** * Further properties of the class *)

Import reach.

(** ** The listing after an add *)

Lemma has_attribute_DB_Set_inv (db : Store) (s s' : RDFURN) (a a' : string)
    (v : Value) (ts : Z) :
  has_attribute (DB_Set db s' a' v ts) s a = true ->
  (s = s' /\ a = a') \/ has_attribute db s a = true.
Proof.
  intro H. apply has_attribute_iff in H as [c [Hin [Hs Ha]]].
  apply In_DB_Set in Hin as [[Hin _]|Hc].
  - right. apply has_attribute_iff. now exists c.
  - left. subst c. simpl in *. now split.
Qed.

Lemma marker_inj (t t' : string) :
  MultiTypeCollection.marker t = MultiTypeCollection.marker t' -> t = t'.
Proof. unfold MultiTypeCollection.marker. apply append_inj_r. Qed.

(** After the two writes of an add, a collection lists what it listed
    before and, if it is the one added to, the type of the value. *)
Lemma ListStoredTypes_after_writes (db : Store) (u : RDFURN) (m : GrrMessage)
    (k : Key) (other : AFF4Object) (value_type : string) :
  In value_type
     (MultiTypeCollection.ListStoredTypes other
        (apply_request (apply_request db (entry_request u m k)) (marker_request u m)))
  <-> (urn other = u /\ value_type = MultiTypeCollection.value_type_of m)
      \/ In value_type (MultiTypeCollection.ListStoredTypes other db).
Proof.
  rewrite !ListStoredTypes_In. split.
  - intro H. unfold apply_request at 1 in H.
    apply has_attribute_DB_Set_inv in H as [[Hs Ha]|H].
    + left. cbn [req_subject req_attribute marker_request] in *.
      split; [exact Hs | now apply marker_inj].
    + unfold apply_request in H.
      apply has_attribute_DB_Set_inv in H as [[_ Ha]|H]; [|now right].
      cbn [req_attribute entry_request] in Ha.
      now apply marker_is_not_ATTRIBUTE in Ha.
  - intros [[Hs Ht]|H].
    + subst. apply has_attribute_DB_Set_same.
    + now do 2 apply has_attribute_apply_mono.
Qed.

(** X3: after an add without a mutation pool, a collection lists exactly
    the types it listed before, and the collection added to lists the type
    of the added value as well: the marker of no other type and of no other
    collection appears or disappears. *)
Theorem Add_lists_its_type_only (self : AFF4Object) (v : RDFValue)
    (ts sfx : option Z) (w : World) (other : AFF4Object) (value_type : string) :
  In value_type
     (MultiTypeCollection.ListStoredTypes other
        (DB (snd (MultiTypeCollection.Add self (Some v) ts sfx None w))))
  <-> (urn other = urn self
       /\ value_type = MultiTypeCollection.value_type_of (MultiTypeCollection.envelope v))
      \/ In value_type (MultiTypeCollection.ListStoredTypes other (DB w)).
Proof.
  unfold MultiTypeCollection.Add. rewrite StaticAdd_direct. cbn [snd DB].
  apply ListStoredTypes_after_writes.
Qed.

(** ** The key an add takes holds the added value only *)

Lemma entries_after_writes (db : Store) (u : RDFURN) (m : GrrMessage) (k : Key) :
  entries (apply_request (apply_request db (entry_request u m k)) (marker_request u m))
    (rdfvalue.Add u (MultiTypeCollection.value_type_of m))
  = entries
      (filter (fun c => negb (at_slot
                                (entry_row u (MultiTypeCollection.value_type_of m) k)
                                ATTRIBUTE c)) db)
      (rdfvalue.Add u (MultiTypeCollection.value_type_of m))
    ++ [(k, m)].
Proof.
  unfold apply_request at 1. cbn [req_subject req_attribute req_value req_timestamp
                                    marker_request].
  rewrite entries_DB_Set_other.
  - unfold apply_request, DB_Set.
    cbn [req_subject req_attribute req_value req_timestamp entry_request].
    rewrite entries_app. f_equal.
    unfold entries. cbn [flat_map]. unfold entry_row.
    rewrite entry_at_entry_cell. reflexivity.
  - intros c Hs Ha. eapply entry_at_on_marker_slot; [exact Hs | exact Ha].
Qed.

(** X4: after an add without a mutation pool, the only envelope a complete
    scan of the type reports under the key the add took is the added one:
    whatever the type held at that (timestamp, suffix) before is replaced. *)
Theorem Add_replaces_at_its_key (self : AFF4Object) (v : RDFValue)
    (ts sfx : option Z) (w : World) (m0 : GrrMessage) :
  In (stamp_of true (key_in w ts sfx), m0)
     (MultiTypeCollection.ScanByType self
        (DB (snd (MultiTypeCollection.Add self (Some v) ts sfx None w)))
        (MultiTypeCollection.value_type_of (MultiTypeCollection.envelope v))
        None true None)
  <-> m0 = MultiTypeCollection.envelope v.
Proof.
  split.
  - unfold MultiTypeCollection.Add. rewrite StaticAdd_direct. cbn [snd DB].
    unfold MultiTypeCollection.ScanByType. cbv zeta. cbn [FACTORY_Create urn].
    intro H. apply In_Scan_all_inv in H. rewrite entries_after_writes in H.
    apply in_app_or in H as [H|[H|[]]]; [|now injection H].
    apply In_entries in H as [c [Hc He]].
    apply filter_In in Hc as [_ Hc]. apply negb_true_iff in Hc.
    apply entry_at_inv in He as [Hs [Ha _]].
    assert (at_slot (entry_row (urn self)
                       (MultiTypeCollection.value_type_of (MultiTypeCollection.envelope v))
                       (key_in w ts sfx)) ATTRIBUTE c = true)
      by (apply at_slot_eq; split; assumption).
    congruence.
  - intros ->.
    unfold MultiTypeCollection.Add. rewrite StaticAdd_direct. cbn [snd DB].
    unfold MultiTypeCollection.ScanByType. cbv zeta. cbn [FACTORY_Create urn].
    apply In_Scan_all. apply entry_after_writes.
Qed.

(** ** Counting after an add *)

Lemma filter_all {A : Type} (p : A -> bool) (l : list A) :
  (forall x, In x l -> p x = true) -> filter p l = l.
Proof.
  induction l as [|x l IH]; intro H; simpl; [reflexivity|].
  rewrite (H x (or_introl eq_refl)). f_equal. apply IH.
  intros y Hy. apply H. now right.
Qed.

Lemma free_key_filter (db : Store) (u : RDFURN) (value_type : string) (k : Key) :
  key_is_free db u value_type k = true ->
  filter (fun c => negb (at_slot (entry_row u value_type k) ATTRIBUTE c)) db = db.
Proof.
  unfold key_is_free, has_attribute. rewrite negb_true_iff. intro H.
  apply filter_all. intros c Hc. apply negb_true_iff.
  destruct (at_slot _ _ c) eqn:E; [|reflexivity].
  assert (existsb (at_slot (entry_row u value_type k) ATTRIBUTE) db = true)
    by (apply existsb_exists; now exists c).
  congruence.
Qed.

Lemma list_sum_Permutation (l l' : list nat) :
  Permutation l l' -> list_sum l = list_sum l'.
Proof. induction 1; simpl; lia. Qed.

Lemma list_sum_map_ext_In {A : Type} (f g : A -> nat) (l : list A) :
  (forall x, In x l -> f x = g x) -> list_sum (map f l) = list_sum (map g l).
Proof.
  induction l as [|x l IH]; intro H; simpl; [reflexivity|].
  rewrite (H x (or_introl eq_refl)), IH; [reflexivity|].
  intros y Hy. apply H. now right.
Qed.

(** In a list without repetition, raising the weight of one member by one
    raises the sum by one. *)
Lemma list_sum_bump (f g : string -> nat) (t : string) (l : list string) :
  NoDup l -> In t l ->
  (forall x, x <> t -> g x = f x) -> g t = S (f t) ->
  list_sum (map g l) = S (list_sum (map f l)).
Proof.
  intros Hnd Hin Hother Ht. induction Hnd as [|x l Hx Hnd IH]; [contradiction|].
  simpl. destruct Hin as [->|Hin].
  - rewrite Ht. rewrite (list_sum_map_ext_In g f l); [lia|].
    intros y Hy. apply Hother. intros ->. contradiction.
  - rewrite IH by exact Hin. rewrite Hother; [lia|].
    intros ->. contradiction.
Qed.

(** X5: in a store that holds each attribute of a row once and whose
    markers cover its entries, as every store does that calls of [StaticAdd]
    built, an add without a mutation pool under a key that is not in use
    raises the length of the value's type by one, leaves the length of every
    other type as it is, and raises [__len__] by one. *)
Theorem Add_counts_one_more (self : AFF4Object) (v : RDFValue)
    (ts sfx : option Z) (w : World) :
  let value_type := MultiTypeCollection.value_type_of (MultiTypeCollection.envelope v) in
  let w' := snd (MultiTypeCollection.Add self (Some v) ts sfx None w) in
  slots_unique (DB w) ->
  markers_cover (DB w) ->
  key_is_free (DB w) (urn self) value_type (key_in w ts sfx) = true ->
  MultiTypeCollection.LengthByType self (DB w') value_type
  = S (MultiTypeCollection.LengthByType self (DB w) value_type)
  /\ (forall other : string,
        other <> value_type ->
        MultiTypeCollection.LengthByType self (DB w') other
        = MultiTypeCollection.LengthByType self (DB w) other)
  /\ MultiTypeCollection.__len__ self (DB w') = S (MultiTypeCollection.__len__ self (DB w)).
Proof.
  cbv zeta. intros Hu Hc Hfree.
  unfold MultiTypeCollection.Add. rewrite StaticAdd_direct. cbn [snd DB].
  set (m := MultiTypeCollection.envelope v) in *.
  set (k := key_in w ts sfx) in *.
  set (db' := apply_request (apply_request (DB w) (entry_request (urn self) m k))
                (marker_request (urn self) m)).
  assert (Hone : MultiTypeCollection.LengthByType self db'
                   (MultiTypeCollection.value_type_of m)
                 = S (MultiTypeCollection.LengthByType self (DB w)
                        (MultiTypeCollection.value_type_of m))).
  { unfold MultiTypeCollection.LengthByType, sequential_collection.__len__.
    cbv zeta. cbn [FACTORY_Create urn]. subst db'.
    rewrite entries_after_writes, free_key_filter by exact Hfree.
    rewrite length_app. simpl. lia. }
  assert (Hother : forall other : string,
             other <> MultiTypeCollection.value_type_of m ->
             MultiTypeCollection.LengthByType self db' other
             = MultiTypeCollection.LengthByType self (DB w) other).
  { intros other Hne.
    unfold MultiTypeCollection.LengthByType, sequential_collection.__len__.
    cbv zeta. cbn [FACTORY_Create urn]. subst db'.
    now rewrite entries_of_other_type. }
  split; [exact Hone|]. split; [exact Hother|].
  rewrite !len_sum.
  assert (Hu' : slots_unique db') by (subst db'; now do 2 apply slots_unique_DB_Set).
  pose proof (ListStoredTypes_NoDup self (DB w) Hu) as Hnd.
  pose proof (ListStoredTypes_NoDup self db' Hu') as Hnd'.
  destruct (in_dec string_dec (MultiTypeCollection.value_type_of m)
              (MultiTypeCollection.ListStoredTypes self (DB w))) as [Hin|Hout].
  - assert (Hperm : Permutation (MultiTypeCollection.ListStoredTypes self db')
                      (MultiTypeCollection.ListStoredTypes self (DB w))).
    { apply NoDup_Permutation; [exact Hnd' | exact Hnd|].
      intro t. subst db'. rewrite ListStoredTypes_after_writes.
      split; [intros [[_ ->]|H]; assumption | now right]. }
    rewrite (list_sum_Permutation _ _
               (Permutation_map (MultiTypeCollection.LengthByType self db') Hperm)).
    apply (list_sum_bump _ _ (MultiTypeCollection.value_type_of m));
      [exact Hnd | exact Hin | exact Hother | exact Hone].
  - assert (Hperm : Permutation (MultiTypeCollection.ListStoredTypes self db')
                      (MultiTypeCollection.value_type_of m
                       :: MultiTypeCollection.ListStoredTypes self (DB w))).
    { apply NoDup_Permutation; [exact Hnd' | now constructor |].
      intro t. subst db'. rewrite ListStoredTypes_after_writes. simpl.
      split; [intros [[_ ->]|H]; [now left | now right]
             | intros [<-|H]; [left; now split | now right]]. }
    rewrite (list_sum_Permutation _ _
               (Permutation_map (MultiTypeCollection.LengthByType self db') Hperm)).
    simpl. rewrite Hone.
    assert (Hzero : MultiTypeCollection.LengthByType self (DB w)
                      (MultiTypeCollection.value_type_of m) = 0%nat).
    { destruct (MultiTypeCollection.LengthByType self (DB w)
                  (MultiTypeCollection.value_type_of m)) eqn:E; [reflexivity|].
      elim Hout. apply Hc. rewrite E. lia. }
    rewrite Hzero. simpl. f_equal.
    apply list_sum_map_ext_In. intros t Ht. apply Hother.
    intros ->. contradiction.
Qed.

Lemma Add_counts_one_more_witness :
  MultiTypeCollection.__len__ scenario.collection
    (DB (snd (MultiTypeCollection.Add scenario.collection
                (Some (Payload "A" "again")) (Some 100) (Some 9) None scenario.final)))
  = S (MultiTypeCollection.__len__ scenario.collection (DB scenario.final)).
Proof.
  refine (proj2 (proj2 (Add_counts_one_more scenario.collection (Payload "A" "again")
                          (Some 100) (Some 9) scenario.final _ _ _))).
  - apply run_slots_unique. constructor.
  - exact (proj1 (run_well_kept scenario.calls _ (empty_world_well_kept 1000 42))).
  - reflexivity.
Defined.

(** ** Staging and applying *)

(** X6: to stage an add in a mutation pool and then apply the pool leaves
    the store as applying the pool first and then adding without a pool
    does, and the pool empty: the batched path writes what the direct path
    writes. *)
Theorem pooled_add_then_flush (u : RDFURN) (t : Token) (v : RDFValue)
    (ts sfx : option Z) (pool : nat) (w : World) :
  DB (snd (MutationPool_Flush pool
             (snd (MultiTypeCollection.StaticAdd u t (Some v) ts sfx (Some pool) w))))
  = DB (snd (MultiTypeCollection.StaticAdd u t (Some v) ts sfx None
               (snd (MutationPool_Flush pool w))))
  /\ mutation_pools
       (snd (MutationPool_Flush pool
               (snd (MultiTypeCollection.StaticAdd u t (Some v) ts sfx (Some pool) w))))
       pool = [].
Proof.
  rewrite StaticAdd_pooled, StaticAdd_direct.
  unfold MutationPool_Flush, modify. cbn [snd DB mutation_pools].
  rewrite !upd_same. split; [|reflexivity].
  rewrite <- app_assoc. cbn [app]. apply fold_left_snoc2.
Qed.

(** ** Listed types have entries *)

Lemma LengthByType_pos (self : AFF4Object) (db : Store) (value_type : string) :
  (0 < MultiTypeCollection.LengthByType self db value_type)%nat
  <-> exists e, In e (entries db (rdfvalue.Add (urn self) value_type)).
Proof.
  unfold MultiTypeCollection.LengthByType, sequential_collection.__len__.
  cbv zeta. cbn [FACTORY_Create urn].
  destruct (entries db (rdfvalue.Add (urn self) value_type)) as [|e l]; simpl; split.
  - lia.
  - intros [e []].
  - intros _. exists e. now left.
  - lia.
Qed.

(** A sequence that has an entry has one after the two writes of an add. *)
Lemma entries_stay_inhabited (db : Store) (u : RDFURN) (m : GrrMessage) (k : Key)
    (seq : RDFURN) (e : Key * GrrMessage) :
  In e (entries db seq) ->
  exists e',
    In e' (entries (apply_request (apply_request db (entry_request u m k))
                      (marker_request u m)) seq).
Proof.
  intro He. apply In_entries in He as [c [Hc He]]. destruct e as [k0 m0].
  apply entry_at_inv in He as Hinv. destruct Hinv as [Hs [Ha _]].
  destruct (at_slot (entry_row u (MultiTypeCollection.value_type_of m) k) ATTRIBUTE c)
    eqn:E.
  - apply at_slot_eq in E as [E _]. rewrite Hs in E. unfold entry_row in E.
    apply app_inj_tail in E as [-> _].
    exists (k, m). apply entry_after_writes.
  - exists (k0, m0). apply In_entries. exists c. split; [|exact He].
    unfold apply_request. apply In_DB_Set. left. split.
    + apply In_DB_Set. left. now split.
    + destruct (at_slot (req_subject (marker_request u m))
                  (req_attribute (marker_request u m)) c) eqn:E'; [|reflexivity].
      apply at_slot_eq in E' as [_ E']. cbn [req_attribute marker_request] in E'.
      rewrite Ha in E'. symmetry in E'. now apply marker_is_not_ATTRIBUTE in E'.
Qed.

Lemma markers_backed_add (db : Store) (u : RDFURN) (m : GrrMessage) (k : Key) :
  markers_backed db ->
  markers_backed
    (apply_request (apply_request db (entry_request u m k)) (marker_request u m)).
Proof.
  intros H other value_type Hin. apply LengthByType_pos.
  apply ListStoredTypes_after_writes in Hin as [[Hu ->]|Hin].
  - rewrite Hu. exists (k, m). apply entry_after_writes.
  - apply H, LengthByType_pos in Hin as [e He].
    now apply entries_stay_inhabited with (e := e).
Qed.

Lemma markers_backed_paired (reqs : list SetRequest) (db : Store) :
  paired reqs -> markers_backed db -> markers_backed (fold_left apply_request reqs db).
Proof.
  intros Hp Hb. induction Hp as [|reqs u m k Hp IH]; [exact Hb|].
  rewrite fold_left_snoc2. now apply markers_backed_add.
Qed.

Lemma step_well_backed (op : Op) (w : World) : well_backed w -> well_backed (step w op).
Proof.
  intros [Hb Hp]. destruct op as [u t [v|] ts sfx [pool|] | pool | clock draw];
    unfold step; try (split; assumption).
  - rewrite StaticAdd_pooled. cbn [snd]. split; [exact Hb|].
    intro q. cbn [mutation_pools].
    destruct (Nat.eq_dec q pool) as [->|ne].
    + rewrite !upd_same, <- app_assoc. cbn [app]. now constructor.
    + rewrite !upd_other by exact ne. apply Hp.
  - rewrite StaticAdd_direct. cbn [snd]. split; [|exact Hp].
    cbn [DB]. now apply markers_backed_add.
  - unfold MutationPool_Flush, modify. cbn [snd]. split.
    + cbn [DB]. now apply markers_backed_paired.
    + intro q. cbn [mutation_pools].
      destruct (Nat.eq_dec q pool) as [->|ne].
      * rewrite upd_same. constructor.
      * rewrite upd_other by exact ne. apply Hp.
Qed.

Lemma run_well_backed (ops : list Op) (w : World) : well_backed w -> well_backed (run ops w).
Proof.
  unfold run. revert w; induction ops as [|op ops IH]; intros w H; simpl; [exact H|].
  apply IH. now apply step_well_backed.
Qed.

Lemma empty_world_well_backed (clock draw : Z) : well_backed (empty_world clock draw).
Proof.
  split.
  - intros self value_type H. cbn in H. contradiction.
  - intro pool. constructor.
Qed.

(** X7: in every world that calls of [StaticAdd] and applications of pools
    lead to from the empty one, a collection lists a type exactly when the
    type has an entry under it: no marker without an entry, no entry without
    a marker. *)
Theorem listed_types_are_the_types_in_use (ops : list Op) (clock draw : Z)
    (self : AFF4Object) (value_type : string) :
  In value_type
     (MultiTypeCollection.ListStoredTypes self (DB (run ops (empty_world clock draw))))
  <-> (0 < MultiTypeCollection.LengthByType self
             (DB (run ops (empty_world clock draw))) value_type)%nat.
Proof.
  split.
  - apply (proj1 (run_well_backed ops _ (empty_world_well_backed clock draw))).
  - apply (proj1 (run_well_kept ops _ (empty_world_well_kept clock draw))).
Qed.

(** ** The listing of a world that adds built *)

(** What the two writes of an add keep, every call keeps. *)
Lemma run_preserves (P : Store -> Prop) :
  (forall db u m k,
     P db -> P (apply_request (apply_request db (entry_request u m k))
                  (marker_request u m))) ->
  forall (ops : list Op) (w : World),
    P (DB w) -> (forall pool, paired (mutation_pools w pool)) ->
    P (DB (run ops w)) /\ (forall pool, paired (mutation_pools (run ops w) pool)).
Proof.
  intros Hadd ops. unfold run.
  induction ops as [|op ops IH]; intros w HP Hp; simpl; [now split|].
  assert (Hfold : forall reqs db, paired reqs -> P db ->
                                  P (fold_left apply_request reqs db)).
  { intros reqs db Hpr Hdb. induction Hpr as [|reqs u m k Hpr IHp]; [exact Hdb|].
    rewrite fold_left_snoc2. now apply Hadd. }
  apply IH; destruct op as [u t [v|] ts sfx [pool|] | pool | clock draw];
    unfold step; try assumption.
  - rewrite StaticAdd_pooled. exact HP.
  - rewrite StaticAdd_direct. cbn [snd DB]. now apply Hadd.
  - unfold MutationPool_Flush, modify. cbn [snd DB]. now apply Hfold.
  - rewrite StaticAdd_pooled. cbn [snd mutation_pools]. intro q.
    destruct (Nat.eq_dec q pool) as [->|ne].
    + rewrite !upd_same, <- app_assoc. cbn [app]. now constructor.
    + rewrite !upd_other by exact ne. apply Hp.
  - rewrite StaticAdd_direct. exact Hp.
  - unfold MutationPool_Flush, modify. cbn [snd mutation_pools]. intro q.
    destruct (Nat.eq_dec q pool) as [->|ne].
    + rewrite upd_same. constructor.
    + rewrite upd_other by exact ne. apply Hp.
Qed.

Lemma value_type_of_not_blank (m : GrrMessage) :
  MultiTypeCollection.value_type_of m <> EmptyString.
Proof.
  unfold MultiTypeCollection.value_type_of, py_or.
  destruct (args_rdf_name m) as [s|]; [|discriminate].
  destruct (String.eqb_spec s EmptyString); [discriminate | assumption].
Qed.

(** X8: in every world that calls of [StaticAdd] and applications of pools
    lead to from the empty one, [ListStoredTypes] returns no type twice,
    however often values of the type were added, and never the empty name:
    the fallback of the type derivation sees to a name. *)
Theorem listing_has_no_repeat_and_no_blank (ops : list Op) (clock draw : Z)
    (self : AFF4Object) :
  NoDup (MultiTypeCollection.ListStoredTypes self (DB (run ops (empty_world clock draw))))
  /\ Forall (fun value_type => value_type <> EmptyString)
       (MultiTypeCollection.ListStoredTypes self (DB (run ops (empty_world clock draw)))).
Proof.
  split.
  - apply ListStoredTypes_NoDup. apply run_slots_unique. constructor.
  - apply Forall_forall. intros t Ht.
    refine (proj1 (run_preserves
                     (fun db => forall (other : AFF4Object) (x : string),
                          In x (MultiTypeCollection.ListStoredTypes other db) ->
                          x <> EmptyString)
                     _ ops (empty_world clock draw) _ _) self t Ht).
    + intros db u m k H other x Hx.
      apply ListStoredTypes_after_writes in Hx as [[_ ->]|Hx].
      * apply value_type_of_not_blank.
      * now apply (H other).
    + intros other x Hx. cbn in Hx. contradiction.
    + intro pool. constructor.
Qed.

(** ** Deletion, further *)

Section OnDelete_frame.

Context {base : AFF4Base}.

Hypothesis super_keeps_store :
  forall (self : AFF4Object) (deletion_pool : option nat) (w : World),
    DB (snd (super_OnDelete self deletion_pool w)) = DB w.

Hypothesis super_accepts_pool :
  forall (self : AFF4Object) (pool : nat) (w : World),
    fst (super_OnDelete self (Some pool) w) = inr tt.

(** The loop of [OnDelete] with a pool touches that deletion pool only. *)
Lemma mark_rows_frame (pool : nat) (rows : list (RDFURN * Z * Value)) (w : World) :
  let w' :=
    snd (for_each rows
           (fun row => let '(u, _, _) := row in
                       match Some pool with
                       | None => raise (AttributeError
                                          "'NoneType' object has no attribute 'MarkForDeletion'")
                       | Some p => MarkForDeletion p u
                       end) w) in
  deletion_pools w' pool = deletion_pools w pool ++ map (fun row => fst (fst row)) rows
  /\ (forall other, other <> pool -> deletion_pools w' other = deletion_pools w other)
  /\ (forall any, mutation_pools w' any = mutation_pools w any).
Proof.
  cbv zeta. revert w; induction rows as [|[[u ts] v] rows IH]; intro w.
  - simpl. rewrite app_nil_r. now repeat split.
  - cbn [for_each]. unfold bind at 1. unfold MarkForDeletion at 1, modify.
    match goal with |- context [for_each rows ?f ?w1] =>
      destruct (IH w1) as [Hpool [Hother Hmut]] end.
    rewrite Hpool. cbn [deletion_pools mutation_pools map fst] in *.
    split; [rewrite upd_same, <- app_assoc; reflexivity|].
    split.
    + intros other Hne. rewrite Hother by exact Hne. now rewrite upd_other.
    + exact Hmut.
Qed.

(** X9: what [OnDelete] adds to the deletion pool it is given are rows of
    the store that lie in the collection's key range and carry the sequence
    attribute, and nothing else: a row of another collection, or a row
    without the attribute, is not registered by it.  No other deletion pool
    and no mutation pool is touched. *)
Theorem OnDelete_registers_nothing_else (self : AFF4Object) (pool : nat) (w : World) :
  let hooked := snd (super_OnDelete self (Some pool) w) in
  let w' := snd (MultiTypeCollection.OnDelete self (Some pool) w) in
  (forall u : RDFURN,
     In u (deletion_pools w' pool) ->
     In u (deletion_pools hooked pool)
     \/ exists c : Cell,
          In c (DB w) /\ subject c = u
          /\ under (urn self) u = true /\ attribute c = ATTRIBUTE)
  /\ (forall other : nat,
        other <> pool -> deletion_pools w' other = deletion_pools hooked other)
  /\ (forall any : nat, mutation_pools w' any = mutation_pools hooked any).
Proof.
  cbv zeta. unfold MultiTypeCollection.OnDelete, bind, gets.
  pose proof (super_accepts_pool self pool w) as Hok.
  pose proof (super_keeps_store self (Some pool) w) as Hdb.
  destruct (super_OnDelete self (Some pool) w) as [[e|[]] w1]; simpl in Hok, Hdb;
    [discriminate|].
  cbn [snd].
  destruct (mark_rows_frame pool (ScanAttribute (DB w1) (urn self) ATTRIBUTE) w1)
    as [Hpool [Hother Hmut]].
  split; [|split; [exact Hother | exact Hmut]].
  intros u Hu. rewrite Hpool in Hu. apply in_app_or in Hu as [Hu|Hu]; [now left|].
  right. apply in_map_iff in Hu as [[[u' ts] v] [Eu Hrow]]. cbn [fst] in Eu. subst u'.
  unfold ScanAttribute in Hrow. apply in_map_iff in Hrow as [c [Ec Hc]].
  apply filter_In in Hc as [Hc Hf]. apply andb_true_iff in Hf as [Hund Hattr].
  apply String.eqb_eq in Hattr. injection Ec as Es _ _.
  exists c. rewrite <- Hdb. rewrite <- Es. now repeat split.
Qed.

(** X10: when no row in the collection's key range carries the sequence
    attribute, [OnDelete] does what the base class's hook does and no more,
    with a deletion pool or without: the missing pool goes unnoticed by the
    loop, which has nothing to register. *)
Theorem OnDelete_of_nothing (self : AFF4Object) (deletion_pool : option nat) (w : World) :
  ScanAttribute (DB w) (urn self) ATTRIBUTE = [] ->
  MultiTypeCollection.OnDelete self deletion_pool w
  = super_OnDelete self deletion_pool w.
Proof.
  intro Hnone. unfold MultiTypeCollection.OnDelete, bind, gets.
  pose proof (super_keeps_store self deletion_pool w) as Hdb.
  destruct (super_OnDelete self deletion_pool w) as [[e|[]] w1]; simpl in Hdb;
    [reflexivity|].
  rewrite Hdb, Hnone. reflexivity.
Qed.

End OnDelete_frame.

Lemma OnDelete_registers_nothing_else_witness :
  (forall u : RDFURN,
     In u (deletion_pools
             (snd (@MultiTypeCollection.OnDelete bases.strict scenario.collection
                     (Some 0%nat) scenario.final)) 0%nat) ->
     In u (deletion_pools
             (snd (@super_OnDelete bases.strict scenario.collection (Some 0%nat)
                     scenario.final)) 0%nat)
     \/ exists c : Cell,
          In c (DB scenario.final) /\ subject c = u
          /\ under (urn scenario.collection) u = true /\ attribute c = ATTRIBUTE)
  /\ deletion_pools
       (snd (@MultiTypeCollection.OnDelete bases.strict scenario.collection
               (Some 0%nat) scenario.final)) 0%nat
     = [ [Name "collection"; Name "A"; Slot 100 7];
         [Name "collection"; Name "A"; Slot 100 5];
         [Name "collection"; Name "B"; Slot 50 42] ].
Proof.
  split; [|reflexivity].
  exact (proj1 (@OnDelete_registers_nothing_else bases.strict
                  strict_keeps_store strict_accepts_pool
                  scenario.collection 0%nat scenario.final)).
Defined.

Lemma OnDelete_of_nothing_witness :
  @MultiTypeCollection.OnDelete bases.silent scenario.collection None
    (empty_world 1000 42)
  = (inr tt, empty_world 1000 42).
Proof.
  exact (@OnDelete_of_nothing bases.silent silent_keeps_store
           scenario.collection None (empty_world 1000 42) eq_refl).
Defined.

(** ** Collections do not interfere *)

Lemma ListStoredTypes_by_cell (self : AFF4Object) (db : Store) :
  MultiTypeCollection.ListStoredTypes self db = flat_map (listed_by self) db.
Proof.
  rewrite ListStoredTypes_flat_map. unfold ResolveRow, listed_by.
  induction db as [|c db IH]; [reflexivity|].
  cbn [filter flat_map].
  destruct (rdfvalue.eqb (subject c) (urn self)).
  - cbn [map flat_map fst]. now rewrite IH.
  - cbn [app]. exact IH.
Qed.

Lemma flat_map_filter_silent {A B : Type} (f : A -> list B) (keep : A -> bool)
    (l : list A) :
  (forall x, In x l -> keep x = false -> f x = []) ->
  flat_map f (filter keep l) = flat_map f l.
Proof.
  induction l as [|x l IH]; intro H; simpl; [reflexivity|].
  destruct (keep x) eqn:E; simpl.
  - f_equal. apply IH. intros y Hy. apply H. now right.
  - rewrite (H x (or_introl eq_refl) E). simpl. apply IH.
    intros y Hy. apply H. now right.
Qed.

(** A write to a slot that makes the collection list nothing leaves its
    listing as it is, in content and in order. *)
Lemma ListStoredTypes_DB_Set_other (self : AFF4Object) (db : Store) (s : RDFURN)
    (a : string) (v : Value) (ts : Z) :
  s <> urn self \/ startswith a MultiTypeCollection.VALUE_TYPE_PREFIX = false ->
  MultiTypeCollection.ListStoredTypes self (DB_Set db s a v ts)
  = MultiTypeCollection.ListStoredTypes self db.
Proof.
  intro H. rewrite !ListStoredTypes_by_cell. unfold DB_Set.
  assert (Hsilent : forall c, subject c = s -> attribute c = a -> listed_by self c = []).
  { intros c Hs Ha. unfold listed_by. rewrite Hs, Ha.
    destruct H as [H|H].
    - destruct (rdfvalue.eqb s (urn self)) eqn:E; [|reflexivity].
      apply urn_eqb_eq in E. contradiction.
    - rewrite H. now destruct (rdfvalue.eqb s (urn self)). }
  rewrite flat_map_app, flat_map_filter_silent.
  - simpl. rewrite (Hsilent {| subject := s; attribute := a; value := v; timestamp := ts |}
                      eq_refl eq_refl).
    now rewrite !app_nil_r.
  - intros c _ Hc. apply negb_false_iff, at_slot_eq in Hc as [Hs Ha]. now apply Hsilent.
Qed.

Lemma ATTRIBUTE_is_no_marker :
  startswith ATTRIBUTE MultiTypeCollection.VALUE_TYPE_PREFIX = false.
Proof. reflexivity. Qed.

(** An add changes the entries of the one sequence it appends to. *)
Lemma entries_of_other_seq (db : Store) (u : RDFURN) (m : GrrMessage) (k : Key)
    (seq : RDFURN) :
  seq <> rdfvalue.Add u (MultiTypeCollection.value_type_of m) ->
  entries (apply_request (apply_request db (entry_request u m k)) (marker_request u m)) seq
  = entries db seq.
Proof.
  intro Hne. unfold apply_request.
  rewrite entries_DB_Set_other.
  - apply entries_DB_Set_other. intros c Hs _.
    destruct (entry_at seq c) as [[k' m']|] eqn:E; [|reflexivity].
    apply entry_at_inv in E as [Hs' _]. cbn [req_subject entry_request] in Hs.
    rewrite Hs in Hs'. unfold entry_row in Hs'.
    apply app_inj_tail in Hs' as [Hs' _]. now elim Hne.
  - intros c Hs Ha. eapply entry_at_on_marker_slot; [exact Hs | exact Ha].
Qed.

Lemma flat_map_ext_In {A B : Type} (f g : A -> list B) (l : list A) :
  (forall x, In x l -> f x = g x) -> flat_map f l = flat_map g l.
Proof.
  induction l as [|x l IH]; intro H; simpl; [reflexivity|].
  rewrite (H x (or_introl eq_refl)), IH; [reflexivity|].
  intros y Hy. apply H. now right.
Qed.

(** X11: an add to one collection, without a mutation pool, changes nothing
    that a collection at another address reads: its listing, its scans and
    lengths by type, its iteration and its count are what they were, also
    when one of the two addresses lies under the other. *)
Theorem other_collections_are_untouched (self other : AFF4Object) (v : RDFValue)
    (ts sfx : option Z) (w : World) :
  urn other <> urn self ->
  let w' := snd (MultiTypeCollection.Add self (Some v) ts sfx None w) in
  MultiTypeCollection.ListStoredTypes other (DB w')
  = MultiTypeCollection.ListStoredTypes other (DB w)
  /\ (forall (value_type : string) (after : option Key) (include_suffix : bool)
             (max_records : option nat),
        MultiTypeCollection.ScanByType other (DB w') value_type
          after include_suffix max_records
        = MultiTypeCollection.ScanByType other (DB w) value_type
            after include_suffix max_records)
  /\ (forall value_type : string,
        MultiTypeCollection.LengthByType other (DB w') value_type
        = MultiTypeCollection.LengthByType other (DB w) value_type)
  /\ MultiTypeCollection.__iter__ other (DB w') = MultiTypeCollection.__iter__ other (DB w)
  /\ MultiTypeCollection.__len__ other (DB w') = MultiTypeCollection.__len__ other (DB w).
Proof.
  intro Hne. cbv zeta. unfold MultiTypeCollection.Add. rewrite StaticAdd_direct.
  cbn [snd DB].
  set (m := MultiTypeCollection.envelope v). set (k := key_in w ts sfx).
  assert (Hseq : forall value_type,
             entries (apply_request (apply_request (DB w) (entry_request (urn self) m k))
                        (marker_request (urn self) m))
               (rdfvalue.Add (urn other) value_type)
             = entries (DB w) (rdfvalue.Add (urn other) value_type)).
  { intro value_type. apply entries_of_other_seq.
    intro E. apply Add_inj in E as [E _]. contradiction. }
  assert (Hlist : MultiTypeCollection.ListStoredTypes other
                    (apply_request (apply_request (DB w) (entry_request (urn self) m k))
                       (marker_request (urn self) m))
                  = MultiTypeCollection.ListStoredTypes other (DB w)).
  { unfold apply_request.
    rewrite ListStoredTypes_DB_Set_other
      by (left; cbn [req_subject marker_request]; congruence).
    apply ListStoredTypes_DB_Set_other. right. exact ATTRIBUTE_is_no_marker. }
  assert (Hscan : forall value_type after include_suffix max_records,
             MultiTypeCollection.ScanByType other
               (apply_request (apply_request (DB w) (entry_request (urn self) m k))
                  (marker_request (urn self) m))
               value_type after include_suffix max_records
             = MultiTypeCollection.ScanByType other (DB w) value_type
                 after include_suffix max_records).
  { intros. unfold MultiTypeCollection.ScanByType, sequential_collection.Scan.
    cbv zeta. cbn [FACTORY_Create urn]. now rewrite Hseq. }
  assert (Hlen : forall value_type,
             MultiTypeCollection.LengthByType other
               (apply_request (apply_request (DB w) (entry_request (urn self) m k))
                  (marker_request (urn self) m)) value_type
             = MultiTypeCollection.LengthByType other (DB w) value_type).
  { intro. unfold MultiTypeCollection.LengthByType, sequential_collection.__len__.
    cbv zeta. cbn [FACTORY_Create urn]. now rewrite Hseq. }
  split; [exact Hlist|]. split; [exact Hscan|]. split; [exact Hlen|]. split.
  - rewrite !iter_drained, Hlist. unfold drained. apply flat_map_ext_In.
    intros t _. apply (Hscan t None true None).
  - rewrite !len_sum, Hlist. apply list_sum_map_ext_In. intros t _. apply Hlen.
Qed.

Lemma other_collections_are_untouched_witness :
  MultiTypeCollection.__iter__ scenario.collection
    (DB (snd (MultiTypeCollection.Add
                {| urn := [Name "collection"; Name "A"]; token := "token" |}
                (Some (Payload "A" "nested")) (Some 100) (Some 5) None scenario.final)))
  = MultiTypeCollection.__iter__ scenario.collection (DB scenario.final).
Proof.
  refine (proj1 (proj2 (proj2 (proj2
            (other_collections_are_untouched
               {| urn := [Name "collection"; Name "A"]; token := "token" |}
               scenario.collection (Payload "A" "nested") (Some 100) (Some 5)
               scenario.final _))))).
  discriminate.
Defined.

(** ** What a scan of a type yields *)

Lemma In_Scan_entries (db : Store) (seq : RDFURN) (after : option Key)
    (include_suffix : bool) (max_records : option nat) (x : Stamp * GrrMessage) :
  In x (sequential_collection.Scan db seq after include_suffix max_records) ->
  exists k : Key, In (k, snd x) (entries db seq).
Proof.
  unfold sequential_collection.Scan. intro H.
  apply in_map_iff in H as [[k m] [<- H]]. exists k. cbn [snd].
  assert (Hlater : In (k, m)
                     match after with
                     | Some k0 => filter (fun e => key_ltb k0 (fst e))
                                    (sort_by_key (entries db seq))
                     | None => sort_by_key (entries db seq)
                     end).
  { destruct max_records as [n|]; [now apply In_firstn_In in H | exact H]. }
  apply In_sort_by_key.
  destruct after as [k0|]; [now apply filter_In in Hlater | exact Hlater].
Qed.

Lemma well_routed_add (db : Store) (u : RDFURN) (m : GrrMessage) (k : Key) :
  well_routed db ->
  well_routed
    (apply_request (apply_request db (entry_request u m k)) (marker_request u m)).
Proof.
  intros H u' value_type k0 m0 Hin.
  destruct (rdfvalue.eqb (rdfvalue.Add u' value_type)
              (rdfvalue.Add u (MultiTypeCollection.value_type_of m))) eqn:E.
  - apply urn_eqb_eq in E. rewrite E in Hin. apply Add_inj in E as [-> ->].
    rewrite entries_after_writes in Hin.
    apply in_app_or in Hin as [Hin|[Hin|[]]]; [|now injection Hin as _ <-].
    apply In_entries in Hin as [c [Hc He]]. apply filter_In in Hc as [Hc _].
    apply (H u _ k0 m0). apply In_entries. now exists c.
  - rewrite entries_of_other_seq in Hin.
    + now apply (H u' value_type k0 m0).
    + intro E'. apply urn_eqb_eq in E'. congruence.
Qed.

(** X12: in every world that calls of [StaticAdd] and applications of pools
    lead to from the empty one, whatever [ScanByType] yields for a type
    name, for any scan arguments, is an envelope that [StaticAdd] routes to
    that very name; and whatever [__iter__] yields is an envelope of a
    listed type. *)
Theorem scans_yield_their_type (ops : list Op) (clock draw : Z) (self : AFF4Object)
    (value_type : string) (after : option Key) (include_suffix : bool)
    (max_records : option nat) :
  Forall (fun x => MultiTypeCollection.value_type_of (snd x) = value_type)
    (MultiTypeCollection.ScanByType self (DB (run ops (empty_world clock draw)))
       value_type after include_suffix max_records)
  /\ Forall (fun x =>
               In (MultiTypeCollection.value_type_of (snd x))
                  (MultiTypeCollection.ListStoredTypes self
                     (DB (run ops (empty_world clock draw)))))
       (MultiTypeCollection.__iter__ self (DB (run ops (empty_world clock draw)))).
Proof.
  assert (Hr : well_routed (DB (run ops (empty_world clock draw)))).
  { refine (proj1 (run_preserves well_routed well_routed_add ops
                     (empty_world clock draw) _ _)).
    - intros u t k m H. cbn in H. contradiction.
    - intro pool. constructor. }
  split; apply Forall_forall; intros x Hx.
  - unfold MultiTypeCollection.ScanByType in Hx. cbv zeta in Hx.
    cbn [FACTORY_Create urn] in Hx.
    apply In_Scan_entries in Hx as [k Hk]. now apply (Hr (urn self) value_type k).
  - rewrite iter_drained in Hx. unfold drained in Hx.
    apply in_flat_map in Hx as [t [Ht Hx]].
    unfold sequential_collection.__iter__ in Hx.
    apply In_Scan_entries in Hx as [k Hk].
    now rewrite (Hr (urn self) t k (snd x) Hk).
Qed.
